(** * Constraint framework: template deep copies and the CRD helper

    A shallow embedding of two files of the constraint framework:

    - the generated deep-copy functions of the [v1alpha1] template types,
      modelled over an explicit heap because what they promise is about
      sharing;
    - [constraint/pkg/client/crd_helpers.go], the helper that composes the
      schema of a constraint kind, wraps it in a custom resource definition
      and validates definitions and instances.

    Go's [error] results are [option error] ([None] is [nil]); a pair
    [(T, error)] is [error + T].  Pointers and maps are [option]s: [None] is
    the nil pointer or the nil map. *)

From stdpp Require Import gmap strings list fin_maps.
From Stdlib Require Import String Ascii.

Open Scope string_scope.
Set Warnings "-register-all".

(** ** Text helpers *)

(** The double quote and the line feed, as one-character strings. *)
Definition dquote : string := String (ascii_of_nat 34) EmptyString.
Definition newline : string := String (ascii_of_nat 10) EmptyString.

(** [strings.Join]. *)
Definition strings_Join (elems : list string) (sep : string) : string :=
  String.concat sep elems.

(** ** Object metadata (package [metav1])

    Kept to the one field that the helper assigns. *)
Module metav1.

Record ObjectMeta := { Name : string }.

End metav1.

(** ** Schemas and definitions of the platform (package [apiextensions])

    Only the fields that the two files read or write are kept, next to a few
    that make a schema fragment recognisable; the code leaves every other
    field at its zero value. *)
Module apiextensions.

Inductive JSONSchemaProps : Type := mkJSONSchemaProps {
  Description : string;
  Type_ : string;
  Required : list string;
  Properties : gmap string JSONSchemaProps
}.

(** [JSONSchemaProps{}]: the zero value. *)
Definition JSONSchemaProps_zero : JSONSchemaProps :=
  {| Description := ""; Type_ := ""; Required := []; Properties := ∅ |}.

Record CustomResourceDefinitionNames := {
  Plural : string;
  Singular : string;
  Kind : string;
  ListKind : string;
  Categories : list string
}.

Record CustomResourceDefinitionVersion := {
  Name : string;
  Served : bool;
  Storage : bool
}.

Record CustomResourceValidation := {
  OpenAPIV3Schema : option JSONSchemaProps
}.

Record CustomResourceDefinitionSpec := {
  Group : string;
  Version : string;
  Names : CustomResourceDefinitionNames;
  Scope : string;
  Validation : option CustomResourceValidation;
  Versions : list CustomResourceDefinitionVersion
}.

Record CustomResourceDefinition := {
  ObjectMeta : metav1.ObjectMeta;
  Spec : CustomResourceDefinitionSpec
}.

End apiextensions.

(** The versioned schema type in which a template author writes the
    parameter schema ([apiextensionsv1beta1.JSONSchemaProps]). *)
Module apiextensionsv1beta1.

Inductive JSONSchemaProps : Type := mkJSONSchemaProps {
  Description : string;
  Type_ : string;
  Required : list string;
  Properties : gmap string JSONSchemaProps
}.

End apiextensionsv1beta1.

(** ** The template types and their generated copies (package [v1alpha1])

    Copying is about sharing, so the objects live in a heap.  A pointer or a
    map is an address, or [None] for nil; a struct is a record that holds
    addresses where the Go struct holds pointers or maps. *)
Module v1alpha1.

Definition loc : Type := positive.

Record TypeMeta := {
  TypeMeta_Kind : string;
  APIVersion : string
}.

(** [ObjectMeta] and its copy are the platform's.  Of its fields the name
    and the labels are kept; the platform copies its other maps and slices
    the way it copies the labels. *)
Record ObjectMeta := {
  Name : string;
  Labels : option loc
}.

(** [Target], [CRDNames] and [ConstraintTemplateStatus] are copied by plain
    assignment, so they hold values only; their declarations are outside the
    file, and one string stands for the values of each. *)
Record Target := { Rego : string }.

Record CRDNames := { Kind : string }.

Record ConstraintTemplateStatus := { Status_value : string }.

Record Validation := {
  OpenAPIV3Schema : option loc
}.

Record CRDSpec := {
  Names : CRDNames;
  CRDSpec_Validation : option loc
}.

Record CRD := { CRD_Spec : CRDSpec }.

Record ConstraintTemplateSpec := {
  Spec_CRD : CRD;
  Targets : option loc
}.

Record ConstraintTemplate := {
  Template_TypeMeta : TypeMeta;
  Template_ObjectMeta : ObjectMeta;
  Spec : ConstraintTemplateSpec;
  Status : ConstraintTemplateStatus
}.

(** What an address may hold: a template, a [Validation], a schema of the
    platform (with all that it owns), a map of targets, a map of labels. *)
Inductive object : Type :=
  | obj_ConstraintTemplate (t : ConstraintTemplate)
  | obj_Validation (v : Validation)
  | obj_JSONSchemaProps (s : apiextensionsv1beta1.JSONSchemaProps)
  | obj_Targets (m : gmap string Target)
  | obj_Labels (m : gmap string string).

Abbreviation Heap := (gmap loc object).

(** *** Heap operations *)

(** A computation on the heap; [None] is a read through an address that
    holds nothing of the expected type, which Go rules out. *)
Definition M (A : Type) : Type := Heap → option (A * Heap).

Definition ret {A : Type} (a : A) : M A := λ h, Some (a, h).

Definition bind {A B : Type} (c : M A) (k : A → M B) : M B :=
  λ h, match c h with
       | Some (a, h') => k a h'
       | None => None
       end.

Notation "'let*' x := c 'in' k" := (bind c (λ x, k))
  (at level 10, x name, c at level 100, k at level 200, only parsing).

(** [new(T)] and [make(map...)]: a fresh address holding [o]. *)
Definition new (o : object) : M loc :=
  λ h, let l := fresh (dom h) in Some (l, <[l := o]> h).

Definition store (l : loc) (o : object) : M unit :=
  λ h, Some (tt, <[l := o]> h).

Definition as_ConstraintTemplate (o : object) : option ConstraintTemplate :=
  match o with obj_ConstraintTemplate t => Some t | _ => None end.
Definition as_Validation (o : object) : option Validation :=
  match o with obj_Validation v => Some v | _ => None end.
Definition as_JSONSchemaProps (o : object) :
    option apiextensionsv1beta1.JSONSchemaProps :=
  match o with obj_JSONSchemaProps s => Some s | _ => None end.
Definition as_Targets (o : object) : option (gmap string Target) :=
  match o with obj_Targets m => Some m | _ => None end.
Definition as_Labels (o : object) : option (gmap string string) :=
  match o with obj_Labels m => Some m | _ => None end.

(** The object of a given type at an address. *)
Definition at_ {A : Type} (as_ : object → option A) (h : Heap) (l : loc) :
    option A :=
  h !! l ≫= as_.

Definition load {A : Type} (as_ : object → option A) (l : loc) : M A :=
  λ h, match at_ as_ h l with
       | Some a => Some (a, h)
       | None => None
       end.

(** The assignment [out[key] = val] on a map of targets and on a map of
    labels. *)
Definition set_Target (out : loc) (key : string) (val : Target) : M unit :=
  let* m := load as_Targets out in
  store out (obj_Targets (<[key := val]> m)).

Definition set_Label (out : loc) (key : string) (val : string) : M unit :=
  let* m := load as_Labels out in
  store out (obj_Labels (<[key := val]> m)).

(** [for key, val := range in { body }]. *)
Definition range {V : Type} (m : gmap string V)
    (body : string → V → M unit) : M unit :=
  map_fold (λ key val done, let* _ := done in body key val) (ret tt) m.

(** *** The copies of the platform *)

(** [JSONSchemaProps.DeepCopy]: a new schema object equal to the one
    pointed to, sharing nothing with it. *)
Definition JSONSchemaProps_DeepCopy (in_ : option loc) : M (option loc) :=
  match in_ with
  | None => ret None
  | Some p =>
      let* s := load as_JSONSchemaProps p in
      let* out := new (obj_JSONSchemaProps s) in
      ret (Some out)
  end.

(** [ObjectMeta.DeepCopyInto]. *)
Definition ObjectMeta_DeepCopyInto (in_ : ObjectMeta) : M ObjectMeta :=
  match Labels in_ with
  | Some p =>
      let* m := load as_Labels p in
      let* out := new (obj_Labels ∅) in
      let* _ := range m (set_Label out) in
      ret {| Name := Name in_; Labels := Some out |}
  | None => ret in_
  end.

(** *** The generated copies

    A [DeepCopyInto] takes the struct [*in] and yields the struct that the
    Go function leaves in [*out]. *)

Definition CRDNames_DeepCopyInto (in_ : CRDNames) : M CRDNames :=
  ret in_.

Definition Validation_DeepCopyInto (in_ : Validation) : M Validation :=
  let out := in_ in
  match OpenAPIV3Schema in_ with
  | Some p =>
      let* copy := JSONSchemaProps_DeepCopy (Some p) in
      ret {| OpenAPIV3Schema := copy |}
  | None => ret out
  end.

Definition Validation_zero : Validation := {| OpenAPIV3Schema := None |}.

Definition Validation_DeepCopy (in_ : option loc) : M (option loc) :=
  match in_ with
  | None => ret None
  | Some p =>
      let* out := new (obj_Validation Validation_zero) in
      let* v := load as_Validation p in
      let* v' := Validation_DeepCopyInto v in
      let* _ := store out (obj_Validation v') in
      ret (Some out)
  end.

Definition CRDSpec_DeepCopyInto (in_ : CRDSpec) : M CRDSpec :=
  let out := in_ in
  match CRDSpec_Validation in_ with
  | Some p =>
      let* out_p := new (obj_Validation Validation_zero) in
      let* v := load as_Validation p in
      let* v' := Validation_DeepCopyInto v in
      let* _ := store out_p (obj_Validation v') in
      ret {| Names := Names in_; CRDSpec_Validation := Some out_p |}
  | None => ret out
  end.

Definition CRD_DeepCopyInto (in_ : CRD) : M CRD :=
  let* spec := CRDSpec_DeepCopyInto (CRD_Spec in_) in
  ret {| CRD_Spec := spec |}.

Definition Target_DeepCopyInto (in_ : Target) : M Target :=
  ret in_.

Definition ConstraintTemplateStatus_DeepCopyInto
    (in_ : ConstraintTemplateStatus) : M ConstraintTemplateStatus :=
  ret in_.

Definition ConstraintTemplateSpec_DeepCopyInto (in_ : ConstraintTemplateSpec) :
    M ConstraintTemplateSpec :=
  let* crd := CRD_DeepCopyInto (Spec_CRD in_) in
  match Targets in_ with
  | Some p =>
      let* m := load as_Targets p in
      let* out_p := new (obj_Targets ∅) in
      let* _ := range m (set_Target out_p) in
      ret {| Spec_CRD := crd; Targets := Some out_p |}
  | None => ret {| Spec_CRD := crd; Targets := None |}
  end.

Definition ConstraintTemplate_DeepCopyInto (in_ : ConstraintTemplate) :
    M ConstraintTemplate :=
  let* meta := ObjectMeta_DeepCopyInto (Template_ObjectMeta in_) in
  let* spec := ConstraintTemplateSpec_DeepCopyInto (Spec in_) in
  ret {| Template_TypeMeta := Template_TypeMeta in_;
         Template_ObjectMeta := meta;
         Spec := spec;
         Status := Status in_ |}.

Definition ConstraintTemplate_zero : ConstraintTemplate :=
  {| Template_TypeMeta := {| TypeMeta_Kind := ""; APIVersion := "" |};
     Template_ObjectMeta := {| Name := ""; Labels := None |};
     Spec := {| Spec_CRD :=
                  {| CRD_Spec := {| Names := {| Kind := "" |};
                                    CRDSpec_Validation := None |} |};
                Targets := None |};
     Status := {| Status_value := "" |} |}.

Definition ConstraintTemplate_DeepCopy (in_ : option loc) : M (option loc) :=
  match in_ with
  | None => ret None
  | Some p =>
      let* out := new (obj_ConstraintTemplate ConstraintTemplate_zero) in
      let* t := load as_ConstraintTemplate p in
      let* t' := ConstraintTemplate_DeepCopyInto t in
      let* _ := store out (obj_ConstraintTemplate t') in
      ret (Some out)
  end.

(** *** What a template is worth, and where it lives *)

(** A template with every address replaced by what it holds. *)
Record ValidationValue := {
  value_OpenAPIV3Schema : option apiextensionsv1beta1.JSONSchemaProps
}.

Record TemplateValue := {
  value_TypeMeta : TypeMeta;
  value_Name : string;
  value_Labels : option (gmap string string);
  value_Names : CRDNames;
  value_Validation : option ValidationValue;
  value_Targets : option (gmap string Target);
  value_Status : ConstraintTemplateStatus
}.

(** What a pointer or map that may be nil holds: [Some None] for nil. *)
Definition deref {A : Type} (as_ : object → option A) (h : Heap)
    (p : option loc) : option (option A) :=
  match p with
  | None => Some None
  | Some l => Some <$> at_ as_ h l
  end.

Definition view_Validation (h : Heap) (p : option loc) :
    option (option ValidationValue) :=
  match p with
  | None => Some None
  | Some l =>
      v ← at_ as_Validation h l;
      s ← deref as_JSONSchemaProps h (OpenAPIV3Schema v);
      Some (Some {| value_OpenAPIV3Schema := s |})
  end.

Definition view_template (h : Heap) (t : ConstraintTemplate) :
    option TemplateValue :=
  labels ← deref as_Labels h (Labels (Template_ObjectMeta t));
  validation ← view_Validation h
    (CRDSpec_Validation (CRD_Spec (Spec_CRD (Spec t))));
  targets ← deref as_Targets h (Targets (Spec t));
  Some {| value_TypeMeta := Template_TypeMeta t;
          value_Name := Name (Template_ObjectMeta t);
          value_Labels := labels;
          value_Names := Names (CRD_Spec (Spec_CRD (Spec t)));
          value_Validation := validation;
          value_Targets := targets;
          value_Status := Status t |}.

Definition view (h : Heap) (p : loc) : option TemplateValue :=
  at_ as_ConstraintTemplate h p ≫= view_template h.

(** The addresses that a template is made of. *)
Definition cells (p : option loc) : list loc :=
  match p with
  | None => []
  | Some l => [l]
  end.

Definition footprint_Validation (h : Heap) (p : option loc) : list loc :=
  match p with
  | None => []
  | Some l =>
      l :: match at_ as_Validation h l with
           | Some v => cells (OpenAPIV3Schema v)
           | None => []
           end
  end.

Definition footprint_template (h : Heap) (t : ConstraintTemplate) : list loc :=
  cells (Labels (Template_ObjectMeta t))
  ++ footprint_Validation h (CRDSpec_Validation (CRD_Spec (Spec_CRD (Spec t))))
  ++ cells (Targets (Spec t)).

Definition footprint (h : Heap) (p : loc) : list loc :=
  p :: match at_ as_ConstraintTemplate h p with
       | Some t => footprint_template h t
       | None => []
       end.

(** A write of [new_object] at [address], and a run of writes. *)
Record mutation := {
  address : loc;
  new_object : object
}.

Definition mutate (ms : list mutation) (h : Heap) : Heap :=
  foldl (λ h m, <[address m := new_object m]> h) h ms.

End v1alpha1.

(** ** Errors *)

(** [field.Error] of the platform's validators. *)
Record field_Error := {
  ErrField : string;
  ErrDetail : string
}.

(** [field.ErrorList] is a slice: [None] is the nil slice, which Go tells
    apart from an empty one in a comparison with [nil] but not in [len]. *)
Definition field_ErrorList : Type := option (list field_Error).

Definition len_ErrorList (l : field_ErrorList) : nat :=
  match l with
  | None => 0
  | Some errs => List.length errs
  end.

(** An operand of a format string. *)
Inductive fmt_arg : Type :=
  | arg_string (s : string)
  | arg_map (m : gmap string bool).

(** The error values that reach a caller of the helper.  [fmt_Errorf] keeps
    the format and its operands as the call site gives them; [Aggregate] is
    the aggregate of [utilerrors.NewAggregate], holding the errors given;
    [platform_error] is an error raised inside the platform. *)
Inductive error : Type :=
  | errors_New (msg : string)
  | fmt_Errorf (format : string) (args : list fmt_arg)
  | Aggregate (errs : list field_Error)
  | platform_error (msg : string).

(** [utilerrors.NewAggregate]: an empty list of errors gives [nil]. *)
Definition NewAggregate (errlist : list field_Error) : option error :=
  match errlist with
  | [] => None
  | _ => Some (Aggregate errlist)
  end.

(** The loop of [ErrorList.ToAggregate]: [errorMsgs] is the set of the texts
    seen so far, [text] renders an error ([fmt.Sprintf] with the verb [%v],
    that is the method [Error] of [field.Error]).  An error whose text was
    seen is skipped; the others are appended in the order of the list. *)
Fixpoint ToAggregate_errs (text : field_Error → string)
    (errorMsgs : gset string) (list_ : list field_Error) : list field_Error :=
  match list_ with
  | [] => []
  | err :: rest =>
      let msg := text err in
      if bool_decide (msg ∈ errorMsgs) then ToAggregate_errs text errorMsgs rest
      else err :: ToAggregate_errs text ({[ msg ]} ∪ errorMsgs) rest
  end.

(** [ErrorList.ToAggregate] of the platform: the errors of the list, one for
    each distinct text, handed to [NewAggregate].  A nil list is ranged over
    as an empty one. *)
Definition ToAggregate (text : field_Error → string) (list_ : field_ErrorList) :
    option error :=
  NewAggregate (ToAggregate_errs text ∅ (default [] list_)).

(** ** Templates as the helper reads them (package [templates])

    The helper only reads a template, so the object graph below a template is
    given as a value: a nil pointer or nil map is [None]. *)
Module templates.

(** The declarations of these types are outside the two files.  [Target] is
    copied by plain assignment in the generated code, so it holds values
    only; one string stands for them. *)
Record Target := { Rego : string }.

Record Validation := {
  OpenAPIV3Schema : option apiextensionsv1beta1.JSONSchemaProps
}.

Record CRDNames := { Kind : string }.

Record CRDSpec := {
  Names : CRDNames;
  CRDSpec_Validation : option Validation
}.

Record CRD := { CRD_Spec : CRDSpec }.

Record ConstraintTemplateSpec := {
  Spec_CRD : CRD;
  Targets : option (gmap string Target)
}.

Record ConstraintTemplate := { Spec : ConstraintTemplateSpec }.

End templates.

(** ** The helper (package [client], file [crd_helpers.go]) *)
Module client.

(** Names of the package and of the two API-version packages that are
    declared outside the file: the API group of every constraint kind and the
    version strings [v1alpha1.SchemeGroupVersion.Version] and
    [v1beta1.SchemeGroupVersion.Version]. *)
Class PackageNames := {
  constraintGroup : string;
  v1alpha1_Version : string;
  v1beta1_Version : string
}.

(** [schema.GroupVersionKind]. *)
Record GroupVersionKind_t := {
  gvk_Group : string;
  gvk_Version : string;
  gvk_Kind : string
}.

(** What the helper calls in libraries outside the repository: Go's
    [strings.ToLower], which lower-cases every letter of Unicode and is not
    limited to ASCII; the text of a field error (the method [Error] of
    [field.Error]), by which [ErrorList.ToAggregate] tells errors apart; the
    instance document with its accessors, the schema validator, the name
    syntax check and the structural validation of a definition.  They are
    collaborators of the helper and stay abstract. *)
Class Platform := {
  strings_ToLower : string → string;
  field_Error_Error : field_Error → string;
  Unstructured : Type;
  GetName : Unstructured → string;
  GetKind : Unstructured → string;
  GroupVersionKind : Unstructured → GroupVersionKind_t;
  SchemaValidator : Type;
  NewSchemaValidator :
    option apiextensions.CustomResourceValidation → error + SchemaValidator;
  ValidateCustomResource : Unstructured → SchemaValidator → field_ErrorList;
  IsDNS1123Subdomain : string → list string;
  ValidateCustomResourceDefinition :
    apiextensions.CustomResourceDefinition → field_ErrorList
}.

(** [runtime.Scheme] as the helper uses it: [Convert] at the three pairs of
    types it is called with, and [Default] on the versioned definition. *)
Record Scheme := {
  v1beta1_CustomResourceDefinition : Type;
  Convert_schema :
    apiextensionsv1beta1.JSONSchemaProps → error + apiextensions.JSONSchemaProps;
  Convert_to_v1beta1 :
    apiextensions.CustomResourceDefinition →
    error + v1beta1_CustomResourceDefinition;
  Default : v1beta1_CustomResourceDefinition → v1beta1_CustomResourceDefinition;
  Convert_from_v1beta1 :
    v1beta1_CustomResourceDefinition →
    error + apiextensions.CustomResourceDefinition
}.

Record crdHelper := { scheme : Scheme }.

(** The interface of a match target. *)
Record MatchSchemaProvider := {
  MatchSchema : apiextensions.JSONSchemaProps
}.

(** [if err != nil { return nil, err }] after a call that yields a value. *)
Definition try {A B : Type} (r : error + A) (k : A → error + B) : error + B :=
  match r with
  | inl err => inl err
  | inr a => k a
  end.

Notation "'try!' x ← r ; k" := (try r (λ x, k))
  (at level 20, x name, r at level 100, k at level 200, only parsing).

(** [len] of a map that may be nil. *)
Definition len_map {V : Type} (m : option (gmap string V)) : nat :=
  match m with
  | None => 0
  | Some m => size m
  end.

Section helper.
Context `{PackageNames} `{Platform}.

Definition supportedVersions : gmap string bool :=
  <[v1beta1_Version := true]> (<[v1alpha1_Version := true]> ∅).

(** A read of a [map[string]bool]: an absent key reads as [false]. *)
Definition index_bool (m : gmap string bool) (k : string) : bool :=
  default false (m !! k).

Definition validateTargets (templ : templates.ConstraintTemplate) : option error :=
  let targets := templates.Targets (templates.Spec templ) in
  if (1 <? len_map targets)%nat then
    Some (errors_New "Multi-target templates are not currently supported")
  else if bool_decide (targets = None) then
    Some (errors_New
      ("Field " ++ dquote ++ "targets" ++ dquote ++
       " not specified in ConstraintTemplate spec"))
  else if (len_map targets =? 0)%nat then
    Some (errors_New
      "No targets specified. ConstraintTemplate must specify one target")
  else None.

Definition createSchema (h : crdHelper) (templ : templates.ConstraintTemplate)
    (target : MatchSchemaProvider) : error + apiextensions.JSONSchemaProps :=
  let props : gmap string apiextensions.JSONSchemaProps :=
    <["enforcementAction" :=
        apiextensions.mkJSONSchemaProps "" "string" [] ∅]>
      (<["match" := MatchSchema target]> ∅) in
  try! props ←
    match templates.CRDSpec_Validation
            (templates.CRD_Spec (templates.Spec_CRD (templates.Spec templ))) with
    | Some validation =>
        match templates.OpenAPIV3Schema validation with
        | Some openAPIV3Schema =>
            try! internalSchema ← Convert_schema (scheme h) openAPIV3Schema;
            inr (<["parameters" := internalSchema]> props)
        | None => inr props
        end
    | None => inr props
    end;
  let schema :=
    apiextensions.mkJSONSchemaProps "" "" []
      {[ "spec" := apiextensions.mkJSONSchemaProps "" "" [] props ]} in
  inr schema.

(** The definition that [createCRD] builds before the round trip through the
    versioned type (the variable [crd] of the source). *)
Definition createCRD_crd (templ : templates.ConstraintTemplate)
    (schema : option apiextensions.JSONSchemaProps) :
    apiextensions.CustomResourceDefinition :=
  let kind :=
    templates.Kind
      (templates.Names
         (templates.CRD_Spec (templates.Spec_CRD (templates.Spec templ)))) in
  {| apiextensions.ObjectMeta := {| metav1.Name := "" |};
     apiextensions.Spec :=
       {| apiextensions.Group := constraintGroup;
          apiextensions.Names :=
            {| apiextensions.Kind := kind;
               apiextensions.ListKind := kind ++ "List";
               apiextensions.Plural := strings_ToLower kind;
               apiextensions.Singular := strings_ToLower kind;
               apiextensions.Categories := ["all"; "constraint"] |};
          apiextensions.Validation :=
            Some {| apiextensions.OpenAPIV3Schema := schema |};
          apiextensions.Scope := "Cluster";
          apiextensions.Version := v1beta1_Version;
          apiextensions.Versions :=
            [ {| apiextensions.Name := v1beta1_Version;
                 apiextensions.Storage := true;
                 apiextensions.Served := true |};
              {| apiextensions.Name := v1alpha1_Version;
                 apiextensions.Storage := false;
                 apiextensions.Served := true |} ] |} |}.

(** [crd2.ObjectMeta.Name = name]. *)
Definition set_Name (crd : apiextensions.CustomResourceDefinition)
    (name : string) : apiextensions.CustomResourceDefinition :=
  {| apiextensions.ObjectMeta := {| metav1.Name := name |};
     apiextensions.Spec := apiextensions.Spec crd |}.

Definition createCRD (h : crdHelper) (templ : templates.ConstraintTemplate)
    (schema : option apiextensions.JSONSchemaProps) :
    error + apiextensions.CustomResourceDefinition :=
  let crd := createCRD_crd templ schema in
  try! v1b1 ← Convert_to_v1beta1 (scheme h) crd;
  let v1b1 := Default (scheme h) v1b1 in
  try! crd2 ← Convert_from_v1beta1 (scheme h) v1b1;
  inr (set_Name crd2
         (apiextensions.Plural (apiextensions.Names (apiextensions.Spec crd))
          ++ "." ++ constraintGroup)).

Definition validateCRD (h : crdHelper)
    (crd : apiextensions.CustomResourceDefinition) : option error :=
  let errors := ValidateCustomResourceDefinition crd in
  if (0 <? len_ErrorList errors)%nat then ToAggregate field_Error_Error errors
  else None.

Definition validateCR (h : crdHelper) (cr : Unstructured)
    (crd : apiextensions.CustomResourceDefinition) : option error :=
  match NewSchemaValidator (apiextensions.Validation (apiextensions.Spec crd)) with
  | inl err => Some err
  | inr validator =>
      match ValidateCustomResource cr validator with
      | Some errs => ToAggregate field_Error_Error (Some errs)
      | None =>
          let kind :=
            apiextensions.Kind (apiextensions.Names (apiextensions.Spec crd)) in
          let errs := IsDNS1123Subdomain (GetName cr) in
          if negb (List.length errs =? 0)%nat then
            Some (fmt_Errorf "Invalid Name: %s"
                    [arg_string (strings_Join errs newline)])
          else if negb (String.eqb (GetKind cr) kind) then
            Some (fmt_Errorf "Wrong kind for constraint %s. Have %s, want %s"
                    [arg_string (GetName cr); arg_string (GetKind cr);
                     arg_string kind])
          else if negb (String.eqb (gvk_Group (GroupVersionKind cr))
                                   constraintGroup) then
            Some (fmt_Errorf "Wrong group for constraint %s. Have %s, want %s"
                    [arg_string (GetName cr);
                     arg_string (gvk_Group (GroupVersionKind cr));
                     arg_string constraintGroup])
          else if negb (index_bool supportedVersions
                          (gvk_Version (GroupVersionKind cr))) then
            Some (fmt_Errorf
                    "Wrong version for constraint %s. Have %s, supported: %v"
                    [arg_string (GetName cr);
                     arg_string (gvk_Version (GroupVersionKind cr));
                     arg_map supportedVersions])
          else None
      end
  end.

(** *** Vocabulary of the properties *)

(** The parameter schema that a template declares, if any: its
    [Validation] and the schema inside it are both present. *)
Definition declared_parameters (templ : templates.ConstraintTemplate) :
    option apiextensionsv1beta1.JSONSchemaProps :=
  validation ← templates.CRDSpec_Validation
    (templates.CRD_Spec (templates.Spec_CRD (templates.Spec templ)));
  templates.OpenAPIV3Schema validation.

(** The property names that a composed schema may carry under [spec]. *)
Definition composed_names : list string :=
  ["match"; "enforcementAction"; "parameters"].

(** The template with its [Validation] removed. *)
Definition without_Validation (templ : templates.ConstraintTemplate) :
    templates.ConstraintTemplate :=
  let spec := templates.Spec templ in
  let crdspec := templates.CRD_Spec (templates.Spec_CRD spec) in
  {| templates.Spec :=
       {| templates.Spec_CRD :=
            {| templates.CRD_Spec :=
                 {| templates.Names := templates.Names crdspec;
                    templates.CRDSpec_Validation := None |} |};
          templates.Targets := templates.Targets spec |} |}.

(** The round trip of [createCRD] through the versioned definition leaves
    the part [f] of the specification of [crd] as it was.  Conversion and
    defaulting belong to the platform; the defaults only fill in what a
    definition leaves unset. *)
Definition round_trip_keeps {A : Type} (s : Scheme)
    (f : apiextensions.CustomResourceDefinitionSpec → A)
    (crd : apiextensions.CustomResourceDefinition) : Prop :=
  ∀ v1b1 crd2,
    Convert_to_v1beta1 s crd = inr v1b1 →
    Convert_from_v1beta1 s (Default s v1b1) = inr crd2 →
    f (apiextensions.Spec crd2) = f (apiextensions.Spec crd).

(** What an aggregate built from the list [errs] holds: [held] is [errs]
    with every error whose text an earlier error has left out. *)
Definition one_for_each_text (errs held : list field_Error) : Prop :=
  held = ToAggregate_errs field_Error_Error ∅ errs ∧
  held `sublist_of` errs ∧
  head held = head errs ∧
  NoDup (field_Error_Error <$> held) ∧
  (∀ err, err ∈ errs →
     ∃ first, first ∈ held ∧ field_Error_Error first = field_Error_Error err) ∧
  (NoDup (field_Error_Error <$> errs) → held = errs).

(** [templ.Spec.CRD.Spec.Names.Kind]. *)
Definition template_Kind (templ : templates.ConstraintTemplate) : string :=
  templates.Kind
    (templates.Names
       (templates.CRD_Spec (templates.Spec_CRD (templates.Spec templ)))).

(** The errors of the four identity checks of [validateCR]. *)
Definition InvalidName (cr : Unstructured) : error :=
  fmt_Errorf "Invalid Name: %s"
    [arg_string (strings_Join (IsDNS1123Subdomain (GetName cr)) newline)].

Definition WrongKind (cr : Unstructured) (want : string) : error :=
  fmt_Errorf "Wrong kind for constraint %s. Have %s, want %s"
    [arg_string (GetName cr); arg_string (GetKind cr); arg_string want].

Definition WrongGroup (cr : Unstructured) : error :=
  fmt_Errorf "Wrong group for constraint %s. Have %s, want %s"
    [arg_string (GetName cr); arg_string (gvk_Group (GroupVersionKind cr));
     arg_string constraintGroup].

Definition WrongVersion (cr : Unstructured) : error :=
  fmt_Errorf "Wrong version for constraint %s. Have %s, supported: %v"
    [arg_string (GetName cr); arg_string (gvk_Version (GroupVersionKind cr));
     arg_map supportedVersions].

End helper.

End client.

(** ** A small platform to run the helper on

    Stand-ins for the collaborators of the helper, small enough to compute
    with: documents as JSON values, a validator that checks the declared
    types along the properties of a schema, a name check, and a scheme whose
    conversions copy. *)
Module demo.
Import client.

Definition names : PackageNames :=
  {| constraintGroup := "constraints.gatekeeper.sh";
     v1alpha1_Version := "v1alpha1";
     v1beta1_Version := "v1beta1" |}.

Inductive JSON : Type :=
  | JString (s : string)
  | JArray (items : list JSON)
  | JObject (fields : list (string * JSON)).

(** An instance document: its identity and its [spec]. *)
Record Document := {
  doc_name : string;
  doc_kind : string;
  doc_group : string;
  doc_version : string;
  doc_spec : JSON
}.

Definition type_of (v : JSON) : string :=
  match v with
  | JString _ => "string"
  | JArray _ => "array"
  | JObject _ => "object"
  end.

(** The field errors of [v] against [s]: a declared type that [v] does not
    have, and the errors of the fields of [v] that [s] has a property for. *)
Fixpoint check (path : string) (v : JSON)
    (s : apiextensions.JSONSchemaProps) : list field_Error :=
  app
  (if bool_decide (apiextensions.Type_ s = "")
      || bool_decide (apiextensions.Type_ s = type_of v)
   then []
   else [ {| ErrField := path; ErrDetail := "Invalid type" |} ])
  match v with
  | JObject fields =>
      (fix check_fields (fields : list (string * JSON)) : list field_Error :=
         match fields with
         | [] => []
         | (k, v') :: rest =>
             app
               match apiextensions.Properties s !! k with
               | Some s' => check (path ++ "." ++ k) v' s'
               | None => []
               end
               (check_fields rest)
         end) fields
  | _ => []
  end.

Definition allowed_in_name (c : ascii) : bool :=
  let n := nat_of_ascii c in
  ((97 <=? n) && (n <=? 122) || (48 <=? n) && (n <=? 57)
   || (n =? 45) || (n =? 46))%nat.

(** Lower-casing of the letters A to Z, every other byte kept: what
    [strings.ToLower] does on ASCII text. *)
Definition lower_ascii (c : ascii) : ascii :=
  let n := nat_of_ascii c in
  if (65 <=? n)%nat && (n <=? 90)%nat then ascii_of_nat (n + 32) else c.

Fixpoint ToLower_ascii (s : string) : string :=
  match s with
  | EmptyString => EmptyString
  | String c rest => String (lower_ascii c) (ToLower_ascii rest)
  end.

Definition platform : Platform :=
  {| strings_ToLower := ToLower_ascii;
     field_Error_Error := λ err, ErrField err ++ ": " ++ ErrDetail err;
     Unstructured := Document;
     GetName := doc_name;
     GetKind := doc_kind;
     GroupVersionKind := λ cr,
       {| gvk_Group := doc_group cr;
          gvk_Version := doc_version cr;
          gvk_Kind := doc_kind cr |};
     SchemaValidator := option apiextensions.JSONSchemaProps;
     NewSchemaValidator := λ validation,
       match validation ≫= apiextensions.OpenAPIV3Schema with
       | Some s =>
           if bool_decide (apiextensions.Type_ s = "number")
           then inl (platform_error "the root of a schema is an object")
           else inr (Some s)
       | None => inr None
       end;
     ValidateCustomResource := λ cr validator,
       match validator with
       | Some s =>
           match check ""
                   (JObject [("spec", doc_spec cr)]) s with
           | [] => None
           | errs => Some errs
           end
       | None => None
       end;
     IsDNS1123Subdomain := λ value,
       if forallb allowed_in_name (list_ascii_of_string value)
       then []
       else ["a DNS-1123 subdomain must consist of lower case alphanumeric characters, - or ."];
     ValidateCustomResourceDefinition := λ crd,
       let names := apiextensions.Names (apiextensions.Spec crd) in
       match
         app
         (if bool_decide (apiextensions.Kind names = "")
          then [ {| ErrField := "spec.names.kind"; ErrDetail := "Required value" |} ]
          else [])
         (if bool_decide (apiextensions.Plural names = "")
          then [ {| ErrField := "spec.names.plural"; ErrDetail := "Required value" |} ]
          else [])
       with
       | [] => None
       | errs => Some errs
       end |}.

(** The author's schema type read into the internal one, field by field. *)
Fixpoint to_internal (s : apiextensionsv1beta1.JSONSchemaProps) :
    apiextensions.JSONSchemaProps :=
  {| apiextensions.Description := apiextensionsv1beta1.Description s;
     apiextensions.Type_ := apiextensionsv1beta1.Type_ s;
     apiextensions.Required := apiextensionsv1beta1.Required s;
     apiextensions.Properties := to_internal <$> apiextensionsv1beta1.Properties s |}.

(** A scheme that copies; its defaulting fills in an empty scope. *)
Definition copying : Scheme :=
  {| v1beta1_CustomResourceDefinition := apiextensions.CustomResourceDefinition;
     Convert_schema := λ s, inr (to_internal s);
     Convert_to_v1beta1 := inr;
     Default := λ crd,
       let spec := apiextensions.Spec crd in
       {| apiextensions.ObjectMeta := apiextensions.ObjectMeta crd;
          apiextensions.Spec :=
            {| apiextensions.Group := apiextensions.Group spec;
               apiextensions.Version := apiextensions.Version spec;
               apiextensions.Names := apiextensions.Names spec;
               apiextensions.Scope :=
                 if bool_decide (apiextensions.Scope spec = "")
                 then "Namespaced" else apiextensions.Scope spec;
               apiextensions.Validation := apiextensions.Validation spec;
               apiextensions.Versions := apiextensions.Versions spec |} |};
     Convert_from_v1beta1 := inr |}.

(** A scheme that refuses every conversion. *)
Definition refusing : Scheme :=
  {| v1beta1_CustomResourceDefinition := unit;
     Convert_schema := λ _, inl (platform_error "no conversion registered");
     Convert_to_v1beta1 := λ _, inl (platform_error "no conversion registered");
     Default := λ v, v;
     Convert_from_v1beta1 := λ _, inl (platform_error "no conversion registered") |}.

Definition helper : crdHelper := {| scheme := copying |}.

(** The template of the required-labels constraint: one target, and a
    parameter schema with an array of labels. *)
Definition labels_schema : apiextensionsv1beta1.JSONSchemaProps :=
  apiextensionsv1beta1.mkJSONSchemaProps "" "" []
    {[ "labels" := apiextensionsv1beta1.mkJSONSchemaProps "" "array" [] ∅ ]}.

Definition template (targets : option (gmap string templates.Target))
    (validation : option templates.Validation) : templates.ConstraintTemplate :=
  {| templates.Spec :=
       {| templates.Spec_CRD :=
            {| templates.CRD_Spec :=
                 {| templates.Names := {| templates.Kind := "K8sRequiredLabels" |};
                    templates.CRDSpec_Validation := validation |} |};
          templates.Targets := targets |} |}.

Definition one_target : option (gmap string templates.Target) :=
  Some {[ "t1" := {| templates.Rego := "package t1" |} ]}.

Definition required_labels : templates.ConstraintTemplate :=
  template one_target (Some {| templates.OpenAPIV3Schema := Some labels_schema |}).

Definition target : MatchSchemaProvider :=
  {| MatchSchema :=
       apiextensions.mkJSONSchemaProps "" "object" []
         {[ "kinds" := apiextensions.mkJSONSchemaProps "" "array" [] ∅ ]} |}.

(** The pipeline: [createSchema], then [createCRD]. *)
Definition synthesize (templ : templates.ConstraintTemplate) :
    error + apiextensions.CustomResourceDefinition :=
  try! schema ← @createSchema helper templ target;
  @createCRD names platform helper templ (Some schema).

(** The schema composed and the definition synthesized for
    [required_labels]. *)
Definition composed : apiextensions.JSONSchemaProps :=
  match @createSchema helper required_labels target with
  | inr schema => schema
  | inl _ => apiextensions.JSONSchemaProps_zero
  end.

Definition definition : apiextensions.CustomResourceDefinition :=
  match synthesize required_labels with
  | inr crd => crd
  | inl _ => @createCRD_crd names platform required_labels None
  end.

(** A definition that the structural validation refuses twice: it has no
    kind, hence no plural name. *)
Definition nameless : apiextensions.CustomResourceDefinition :=
  @createCRD_crd names platform
    {| templates.Spec :=
         {| templates.Spec_CRD :=
              {| templates.CRD_Spec :=
                   {| templates.Names := {| templates.Kind := "" |};
                      templates.CRDSpec_Validation := None |} |};
            templates.Targets := one_target |} |}
    None.

(** An instance with a well-formed body, and one whose [labels] is a string
    where the schema asks for an array. *)
Definition instance (name kind version : string) (labels : JSON) : Document :=
  {| doc_name := name;
     doc_kind := kind;
     doc_group := "constraints.gatekeeper.sh";
     doc_version := version;
     doc_spec := JObject [("parameters", JObject [("labels", labels)])] |}.

Definition good_labels : JSON := JArray [JString "owner"].
Definition bad_labels : JSON := JString "owner".

(** A heap with one template: the template at address 1, its labels at 2,
    its [Validation] at 3 with the schema at 4, its targets at 5. *)
Definition stored : v1alpha1.ConstraintTemplate :=
  {| v1alpha1.Template_TypeMeta :=
       {| v1alpha1.TypeMeta_Kind := "ConstraintTemplate";
          v1alpha1.APIVersion := "templates.gatekeeper.sh/v1alpha1" |};
     v1alpha1.Template_ObjectMeta :=
       {| v1alpha1.Name := "k8srequiredlabels";
          v1alpha1.Labels := Some 2%positive |};
     v1alpha1.Spec :=
       {| v1alpha1.Spec_CRD :=
            {| v1alpha1.CRD_Spec :=
                 {| v1alpha1.Names := {| v1alpha1.Kind := "K8sRequiredLabels" |};
                    v1alpha1.CRDSpec_Validation := Some 3%positive |} |};
          v1alpha1.Targets := Some 5%positive |};
     v1alpha1.Status := {| v1alpha1.Status_value := "" |} |}.

Definition heap : gmap v1alpha1.loc v1alpha1.object :=
  <[1%positive := v1alpha1.obj_ConstraintTemplate stored]>
  (<[2%positive := v1alpha1.obj_Labels {[ "team" := "policy" ]}]>
  (<[3%positive := v1alpha1.obj_Validation
                     {| v1alpha1.OpenAPIV3Schema := Some 4%positive |}]>
  (<[4%positive := v1alpha1.obj_JSONSchemaProps labels_schema]>
  (<[5%positive := v1alpha1.obj_Targets
                     {[ "t1" := {| v1alpha1.Rego := "package t1" |} ]}]> ∅)))).

Definition stored_value : v1alpha1.TemplateValue :=
  {| v1alpha1.value_TypeMeta := v1alpha1.Template_TypeMeta stored;
     v1alpha1.value_Name := "k8srequiredlabels";
     v1alpha1.value_Labels := Some {[ "team" := "policy" ]};
     v1alpha1.value_Names := {| v1alpha1.Kind := "K8sRequiredLabels" |};
     v1alpha1.value_Validation :=
       Some {| v1alpha1.value_OpenAPIV3Schema := Some labels_schema |};
     v1alpha1.value_Targets :=
       Some {[ "t1" := {| v1alpha1.Rego := "package t1" |} ]};
     v1alpha1.value_Status := {| v1alpha1.Status_value := "" |} |}.

End demo.

(** ** Lists of templates and copies behind an interface (package [v1alpha1])

    The remaining generated copies: of a list of templates, and of a
    template or a list handed out as a [runtime.Object]. *)
Module v1alpha1_lists.
Import v1alpha1.

(** [metav1.ListMeta] is copied by plain assignment: it holds values. *)
Record ListMeta := {
  SelfLink : string;
  ResourceVersion : string;
  Continue : string
}.

(** A slice of templates: the address of its backing array, where it starts
    in the array, and its length. *)
Record slice := {
  array : loc;
  offset : nat;
  len : nat
}.

Record ConstraintTemplateList := {
  List_TypeMeta : TypeMeta;
  List_ListMeta : ListMeta;
  Items : option slice
}.

(** The heap of [v1alpha1], the backing arrays of the slices, where the
    templates of a list are laid out one after the other, and the lists that
    stand behind a pointer. *)
Record Store := {
  objects : gmap loc object;
  arrays : gmap loc (list ConstraintTemplate);
  lists : gmap loc ConstraintTemplateList
}.

Definition MS (A : Type) : Type := Store → option (A * Store).

Definition retS {A : Type} (a : A) : MS A := λ s, Some (a, s).

Definition bindS {A B : Type} (c : MS A) (k : A → MS B) : MS B :=
  λ s, match c s with
       | Some (a, s') => k a s'
       | None => None
       end.

Notation "'let!' x := c 'in' k" := (bindS c (λ x, k))
  (at level 10, x name, c at level 100, k at level 200, only parsing).

(** A computation on the objects, run in a store. *)
Definition on_objects {A : Type} (c : M A) : MS A :=
  λ s, match c (objects s) with
       | Some (a, h') =>
           Some (a, {| objects := h'; arrays := arrays s; lists := lists s |})
       | None => None
       end.

(** [make([]ConstraintTemplate, n)]: a new array of [n] zero templates. *)
Definition make_Items (n : nat) : MS slice :=
  λ s, let a := fresh (dom (arrays s)) in
       Some ({| array := a; offset := 0; len := n |},
             {| objects := objects s;
                arrays := <[a := replicate n ConstraintTemplate_zero]> (arrays s);
                lists := lists s |}).

(** The read [sl[i]] and the assignment [sl[i] = t]; [None] is the panic of
    an index out of range. *)
Definition index (sl : slice) (i : nat) : MS ConstraintTemplate :=
  λ s, if (i <? len sl)%nat
       then arr ← arrays s !! array sl;
            t ← arr !! (offset sl + i)%nat;
            Some (t, s)
       else None.

Definition set_index (sl : slice) (i : nat) (t : ConstraintTemplate) : MS unit :=
  λ s, if (i <? len sl)%nat
       then arr ← arrays s !! array sl;
            if (offset sl + i <? List.length arr)%nat
            then Some (tt, {| objects := objects s;
                              arrays := <[array sl :=
                                            <[(offset sl + i)%nat := t]> arr]>
                                          (arrays s);
                              lists := lists s |})
            else None
       else None.

(** [for i := range sl { body }], from index [i] on, [n] indices to go. *)
Fixpoint range_from (i n : nat) (body : nat → MS unit) : MS unit :=
  match n with
  | 0 => retS tt
  | S n' => let! _ := body i in range_from (S i) n' body
  end.

(** The body of the loop of [DeepCopyInto]: the copy of [in[i]] goes to
    [out[i]]. *)
Definition copy_item (in_ out : slice) (i : nat) : MS unit :=
  let! t := index in_ i in
  let! t' := on_objects (ConstraintTemplate_DeepCopyInto t) in
  set_index out i t'.

Definition ConstraintTemplateList_DeepCopyInto (in_ : ConstraintTemplateList) :
    MS ConstraintTemplateList :=
  let out := in_ in
  match Items in_ with
  | Some in_items =>
      let! out_items := make_Items (len in_items) in
      let! _ := range_from 0 (len in_items) (copy_item in_items out_items) in
      retS {| List_TypeMeta := List_TypeMeta in_;
             List_ListMeta := List_ListMeta in_;
             Items := Some out_items |}
  | None => retS out
  end.

Definition ConstraintTemplateList_zero : ConstraintTemplateList :=
  {| List_TypeMeta := {| TypeMeta_Kind := ""; APIVersion := "" |};
     List_ListMeta := {| SelfLink := ""; ResourceVersion := ""; Continue := "" |};
     Items := None |}.

(** [new(ConstraintTemplateList)], and the read and the write of a list
    through a pointer. *)
Definition new_List (l : ConstraintTemplateList) : MS loc :=
  λ s, let p := fresh (dom (lists s)) in
       Some (p, {| objects := objects s;
                   arrays := arrays s;
                   lists := <[p := l]> (lists s) |}).

Definition load_List (p : loc) : MS ConstraintTemplateList :=
  λ s, l ← lists s !! p; Some (l, s).

Definition store_List (p : loc) (l : ConstraintTemplateList) : MS unit :=
  λ s, Some (tt, {| objects := objects s;
                    arrays := arrays s;
                    lists := <[p := l]> (lists s) |}).

Definition ConstraintTemplateList_DeepCopy (in_ : option loc) : MS (option loc) :=
  match in_ with
  | None => retS None
  | Some p =>
      let! out := new_List ConstraintTemplateList_zero in
      let! l := load_List p in
      let! l' := ConstraintTemplateList_DeepCopyInto l in
      let! _ := store_List out l' in
      retS (Some out)
  end.

(** A [runtime.Object]: the nil interface, or a pointer to a template or to
    a list; the pointer inside an interface may itself be nil, and such an
    interface is not the nil interface. *)
Inductive runtime_Object : Type :=
  | Object_nil
  | Object_ConstraintTemplate (p : option loc)
  | Object_ConstraintTemplateList (p : option loc).

Definition ConstraintTemplate_DeepCopyObject (in_ : option loc) :
    MS runtime_Object :=
  let! c := on_objects (ConstraintTemplate_DeepCopy in_) in
  match c with
  | Some _ => retS (Object_ConstraintTemplate c)
  | None => retS Object_nil
  end.

Definition ConstraintTemplateList_DeepCopyObject (in_ : option loc) :
    MS runtime_Object :=
  let! c := ConstraintTemplateList_DeepCopy in_ in
  match c with
  | Some _ => retS (Object_ConstraintTemplateList c)
  | None => retS Object_nil
  end.

(** The templates that a slice shows. *)
Definition items_of (s : Store) (sl : slice) : option (list ConstraintTemplate) :=
  arr ← arrays s !! array sl;
  if (offset sl + len sl <=? List.length arr)%nat
  then Some (take (len sl) (drop (offset sl) arr))
  else None.

(** A list with every address replaced by what it holds. *)
Record ListValue := {
  value_List_TypeMeta : TypeMeta;
  value_List_ListMeta : ListMeta;
  value_Items : option (list TemplateValue)
}.

Definition view_Items (s : Store) (items : option slice) :
    option (option (list TemplateValue)) :=
  match items with
  | None => Some None
  | Some sl =>
      ts ← items_of s sl;
      vs ← mapM (view_template (objects s)) ts;
      Some (Some vs)
  end.

Definition view_List (s : Store) (l : ConstraintTemplateList) : option ListValue :=
  items ← view_Items s (Items l);
  Some {| value_List_TypeMeta := List_TypeMeta l;
          value_List_ListMeta := List_ListMeta l;
          value_Items := items |}.

(** Between two heaps, no address comes to hold an object but those of
    [new]. *)
Definition only_adds (h h' : gmap loc object) (new : list loc) : Prop :=
  ∀ a, is_Some (h' !! a) → is_Some (h !! a) ∨ a ∈ new.

End v1alpha1_lists.

(** ** More values to run the code on *)
Module demo_more.
Import client.

(** A template of a given kind, with one target and no parameter schema,
    and the definition synthesized for it. *)
Definition template_of_kind (kind : string) : templates.ConstraintTemplate :=
  {| templates.Spec :=
       {| templates.Spec_CRD :=
            {| templates.CRD_Spec :=
                 {| templates.Names := {| templates.Kind := kind |};
                    templates.CRDSpec_Validation := None |} |};
          templates.Targets := demo.one_target |} |}.

Definition definition_of_kind (kind : string) :
    apiextensions.CustomResourceDefinition :=
  match @createCRD demo.names demo.platform demo.helper (template_of_kind kind) None with
  | inr crd => crd
  | inl _ => @createCRD_crd demo.names demo.platform (template_of_kind kind) None
  end.

(** A template that declares the schema of [demo.required_labels] and has
    no targets at all. *)
Definition without_targets : templates.ConstraintTemplate :=
  demo.template None
    (Some {| templates.OpenAPIV3Schema := Some demo.labels_schema |}).

(** A definition with the schema and the kind of [demo.definition], another
    group and no version. *)
Definition foreign : apiextensions.CustomResourceDefinition :=
  {| apiextensions.ObjectMeta := {| metav1.Name := "labels.example.com" |};
     apiextensions.Spec :=
       {| apiextensions.Group := "example.com";
          apiextensions.Version := "v9";
          apiextensions.Names :=
            {| apiextensions.Plural := "labels";
               apiextensions.Singular := "label";
               apiextensions.Kind := "K8sRequiredLabels";
               apiextensions.ListKind := "Labels";
               apiextensions.Categories := [] |};
          apiextensions.Scope := "Namespaced";
          apiextensions.Validation :=
            Some {| apiextensions.OpenAPIV3Schema := Some demo.composed |};
          apiextensions.Versions := [] |} |}.

Definition accepted : demo.Document :=
  demo.instance "my-labels" "K8sRequiredLabels" "v1beta1" demo.good_labels.

(** A platform whose structural validation goes over a definition in two
    passes and reports what each pass finds: an error that both passes find
    is in the list twice.  The rest is [demo.platform]. *)
Definition two_passes : client.Platform :=
  {| client.strings_ToLower := @client.strings_ToLower demo.platform;
     client.field_Error_Error := @client.field_Error_Error demo.platform;
     client.Unstructured := @client.Unstructured demo.platform;
     client.GetName := @client.GetName demo.platform;
     client.GetKind := @client.GetKind demo.platform;
     client.GroupVersionKind := @client.GroupVersionKind demo.platform;
     client.SchemaValidator := @client.SchemaValidator demo.platform;
     client.NewSchemaValidator := @client.NewSchemaValidator demo.platform;
     client.ValidateCustomResource :=
       @client.ValidateCustomResource demo.platform;
     client.IsDNS1123Subdomain := @client.IsDNS1123Subdomain demo.platform;
     client.ValidateCustomResourceDefinition := λ crd,
       match @client.ValidateCustomResourceDefinition demo.platform crd with
       | Some errs => Some (app errs errs)
       | None => None
       end |}.

(** A list whose two items are the stored template twice, so that both
    point to the same labels, [Validation], schema and targets. *)
Definition stored_twice : v1alpha1_lists.ConstraintTemplateList :=
  {| v1alpha1_lists.List_TypeMeta :=
       {| v1alpha1.TypeMeta_Kind := "ConstraintTemplateList";
          v1alpha1.APIVersion := "templates.gatekeeper.sh/v1alpha1" |};
     v1alpha1_lists.List_ListMeta :=
       {| v1alpha1_lists.SelfLink := "";
          v1alpha1_lists.ResourceVersion := "42";
          v1alpha1_lists.Continue := "" |};
     v1alpha1_lists.Items :=
       Some {| v1alpha1_lists.array := 1%positive;
               v1alpha1_lists.offset := 0;
               v1alpha1_lists.len := 2 |} |}.

Definition store : v1alpha1_lists.Store :=
  {| v1alpha1_lists.objects := demo.heap;
     v1alpha1_lists.arrays := {[ 1%positive := [demo.stored; demo.stored] ]};
     v1alpha1_lists.lists := {[ 1%positive := stored_twice ]} |}.

Definition stored_twice_value : v1alpha1_lists.ListValue :=
  {| v1alpha1_lists.value_List_TypeMeta :=
       v1alpha1_lists.List_TypeMeta stored_twice;
     v1alpha1_lists.value_List_ListMeta :=
       v1alpha1_lists.List_ListMeta stored_twice;
     v1alpha1_lists.value_Items :=
       Some [demo.stored_value; demo.stored_value] |}.

End demo_more.

(** * Properties of the generated copies *)
Section deep_copy.
Import v1alpha1.

Implicit Types (h : gmap loc object) (l : loc) (p : option loc).

(** ** Reads *)

Lemma at_agree {A : Type} (as_ : object → option A) h h2 l :
  h2 !! l = h !! l → at_ as_ h2 l = at_ as_ h l.
Proof. unfold at_. by intros ->. Qed.

Lemma at_allocated {A : Type} (as_ : object → option A) h l :
  is_Some (at_ as_ h l) → is_Some (h !! l).
Proof. unfold at_. destruct (h !! l); [by eexists | by intros [? [=]]]. Qed.

Lemma at_new {A : Type} (as_ : object → option A) h l o :
  at_ as_ (<[l := o]> h) l = as_ o.
Proof. unfold at_. by rewrite lookup_insert_eq. Qed.

Lemma load_at {A : Type} (as_ : object → option A) h l a :
  at_ as_ h l = Some a → load as_ l h = Some (a, h).
Proof. unfold load. by intros ->. Qed.

Lemma fresh_free h : h !! fresh (dom h) = None.
Proof. apply not_elem_of_dom, is_fresh. Qed.

Lemma deref_agree {A : Type} (as_ : object → option A) h h2 p :
  (∀ l, l ∈ cells p → h2 !! l = h !! l) →
  deref as_ h2 p = deref as_ h p.
Proof.
  destruct p as [l|]; [| done]. intros Hagree. cbn.
  rewrite (at_agree as_ h h2 l); [done |]. apply Hagree. cbn. set_solver.
Qed.

Lemma deref_allocated {A : Type} (as_ : object → option A) h p :
  is_Some (deref as_ h p) → ∀ l, l ∈ cells p → is_Some (h !! l).
Proof.
  destruct p as [l'|]; cbn; [| set_solver].
  intros Hsome l ->%list_elem_of_singleton. apply (at_allocated as_).
  destruct (at_ as_ h l'); [by eexists | by destruct Hsome].
Qed.

(** ** The loops that copy a map

    Whatever the order in which [range] visits the entries of [m], the map
    at [out] ends as [m] laid over what it held. *)
Lemma range_set_Target (out : loc) (m : gmap string Target) :
  ∀ h m0, h !! out = Some (obj_Targets m0) →
    range m (set_Target out) h = Some (tt, <[out := obj_Targets (m ∪ m0)]> h).
Proof.
  unfold range.
  apply (map_fold_weak_ind
    (λ (r : M unit) (m : gmap string Target),
       ∀ h m0, h !! out = Some (obj_Targets m0) →
         r h = Some (tt, <[out := obj_Targets (m ∪ m0)]> h))).
  - intros h m0 Hout. unfold ret. rewrite (left_id_L ∅ (∪)).
    by rewrite insert_id.
  - intros key val m' r Hfree IH h m0 Hout. unfold bind.
    rewrite (IH h m0 Hout). unfold set_Target, bind, load, store.
    rewrite at_new. cbn. rewrite insert_insert_eq.
    by rewrite insert_union_l.
Qed.

Lemma range_set_Label (out : loc) (m : gmap string string) :
  ∀ h m0, h !! out = Some (obj_Labels m0) →
    range m (set_Label out) h = Some (tt, <[out := obj_Labels (m ∪ m0)]> h).
Proof.
  unfold range.
  apply (map_fold_weak_ind
    (λ (r : M unit) (m : gmap string string),
       ∀ h m0, h !! out = Some (obj_Labels m0) →
         r h = Some (tt, <[out := obj_Labels (m ∪ m0)]> h))).
  - intros h m0 Hout. unfold ret. rewrite (left_id_L ∅ (∪)).
    by rewrite insert_id.
  - intros key val m' r Hfree IH h m0 Hout. unfold bind.
    rewrite (IH h m0 Hout). unfold set_Label, bind, load, store.
    rewrite at_new. cbn. rewrite insert_insert_eq.
    by rewrite insert_union_l.
Qed.

(** ** A view reads the footprint and nothing else *)

Lemma agree_of_subseteq h h' (ls : list loc) :
  h ⊆ h' → (∀ l, l ∈ ls → is_Some (h !! l)) →
  ∀ l, l ∈ ls → h' !! l = h !! l.
Proof.
  intros Hsub Hall l [o Ho]%Hall. rewrite Ho. by eapply lookup_weaken.
Qed.

Lemma view_Validation_agree h h2 p :
  (∀ l, l ∈ footprint_Validation h p → h2 !! l = h !! l) →
  view_Validation h2 p = view_Validation h p ∧
  footprint_Validation h2 p = footprint_Validation h p.
Proof.
  destruct p as [l|]; [| done]. cbn. intros Hagree.
  rewrite (at_agree as_Validation h h2 l) by (apply Hagree; set_solver).
  destruct (at_ as_Validation h l) as [v|] eqn:Hv; [| done]. cbn.
  rewrite (deref_agree as_JSONSchemaProps h h2); [done |].
  intros l' Hl'. apply Hagree. set_solver.
Qed.

Lemma view_Validation_allocated h p :
  is_Some (view_Validation h p) →
  ∀ l, l ∈ footprint_Validation h p → is_Some (h !! l).
Proof.
  destruct p as [l|]; cbn; [| set_solver]. intros Hsome.
  destruct (at_ as_Validation h l) as [v|] eqn:Hv; [| by destruct Hsome].
  cbn in Hsome.
  intros l' [->|Hl']%elem_of_cons.
  - apply (at_allocated as_Validation). by rewrite Hv.
  - apply (deref_allocated as_JSONSchemaProps h (OpenAPIV3Schema v)); [| done].
    destruct (deref as_JSONSchemaProps h (OpenAPIV3Schema v));
      [by eexists | by destruct Hsome].
Qed.

Lemma view_template_agree h h2 (t : ConstraintTemplate) :
  (∀ l, l ∈ footprint_template h t → h2 !! l = h !! l) →
  view_template h2 t = view_template h t ∧
  footprint_template h2 t = footprint_template h t.
Proof.
  unfold view_template, footprint_template. intros Hagree.
  rewrite (deref_agree as_Labels h h2) by (intros; apply Hagree; set_solver).
  rewrite (deref_agree as_Targets h h2) by (intros; apply Hagree; set_solver).
  destruct (view_Validation_agree h h2
              (CRDSpec_Validation (CRD_Spec (Spec_CRD (Spec t))))) as [-> ->];
    [intros; apply Hagree; set_solver | done].
Qed.

Lemma view_template_allocated h (t : ConstraintTemplate) :
  is_Some (view_template h t) →
  ∀ l, l ∈ footprint_template h t → is_Some (h !! l).
Proof.
  unfold view_template, footprint_template. intros Hsome.
  destruct (deref as_Labels h _) as [labels|] eqn:Hlabels;
    [| by destruct Hsome].
  destruct (view_Validation h _) as [validation|] eqn:Hvalidation;
    [| by destruct Hsome].
  destruct (deref as_Targets h _) as [targets|] eqn:Htargets;
    [| by destruct Hsome].
  intros l [Hl | [Hl | Hl]%elem_of_app]%elem_of_app.
  - eapply (deref_allocated as_Labels); [by rewrite Hlabels | done].
  - eapply view_Validation_allocated; [by rewrite Hvalidation | done].
  - eapply (deref_allocated as_Targets); [by rewrite Htargets | done].
Qed.

Lemma view_agree h h2 (l : loc) :
  (∀ l', l' ∈ footprint h l → h2 !! l' = h !! l') →
  view h2 l = view h l ∧ footprint h2 l = footprint h l.
Proof.
  unfold view, footprint. intros Hagree.
  rewrite (at_agree as_ConstraintTemplate h h2 l) by (apply Hagree; set_solver).
  destruct (at_ as_ConstraintTemplate h l) as [t|] eqn:Ht; [| done]. cbn.
  destruct (view_template_agree h h2 t) as [-> ->]; [| done].
  intros l' Hl'. apply Hagree, elem_of_cons. by right.
Qed.

Lemma view_allocated h (l : loc) :
  is_Some (view h l) → ∀ l', l' ∈ footprint h l → is_Some (h !! l').
Proof.
  unfold view, footprint. intros Hsome.
  destruct (at_ as_ConstraintTemplate h l) as [t|] eqn:Ht;
    [| by destruct Hsome].
  cbn in Hsome. intros l' [->|Hl']%elem_of_cons.
  - apply (at_allocated as_ConstraintTemplate). by rewrite Ht.
  - by eapply view_template_allocated.
Qed.

(** Writes away from the footprint of a template leave it as it is. *)
Lemma mutate_away (ms : list mutation) h (ls : list loc) :
  Forall (λ m, address m ∉ ls) ms →
  ∀ l, l ∈ ls → mutate ms h !! l = h !! l.
Proof.
  unfold mutate. revert h.
  induction ms as [|m ms IH]; intros h Hms l Hl; [done |].
  apply Forall_cons in Hms as [Hm Hms]. cbn.
  rewrite (IH _ Hms l Hl). apply lookup_insert_ne. by intros Heq; rewrite Heq in Hm.
Qed.

(** ** A larger heap shows the same template *)

Lemma deref_mono {A : Type} (as_ : object → option A) h h' p :
  h ⊆ h' → is_Some (deref as_ h p) → deref as_ h' p = deref as_ h p.
Proof.
  intros Hsub Hsome. apply deref_agree.
  apply (agree_of_subseteq h h'); [done |]. by apply (deref_allocated as_).
Qed.

Lemma view_Validation_mono h h' p :
  h ⊆ h' → is_Some (view_Validation h p) →
  view_Validation h' p = view_Validation h p ∧
  footprint_Validation h' p = footprint_Validation h p.
Proof.
  intros Hsub Hsome. apply view_Validation_agree.
  apply (agree_of_subseteq h h'); [done |]. by apply view_Validation_allocated.
Qed.

Lemma view_mono h h' (l : loc) :
  h ⊆ h' → is_Some (view h l) →
  view h' l = view h l ∧ footprint h' l = footprint h l.
Proof.
  intros Hsub Hsome. apply view_agree.
  apply (agree_of_subseteq h h'); [done |]. by apply view_allocated.
Qed.

Lemma new_subseteq h (o : object) : h ⊆ <[fresh (dom h) := o]> h.
Proof. apply insert_subseteq, fresh_free. Qed.

(** ** The copies, one by one

    Each copy succeeds on a well-formed argument, keeps every object of the
    heap, yields a struct that shows the same value, and builds it from
    addresses that were free before. *)

Lemma JSONSchemaProps_DeepCopy_spec h p :
  is_Some (deref as_JSONSchemaProps h p) →
  ∃ p' h',
    JSONSchemaProps_DeepCopy p h = Some (p', h') ∧ h ⊆ h' ∧
    deref as_JSONSchemaProps h' p' = deref as_JSONSchemaProps h p ∧
    ∀ l, l ∈ cells p' → h !! l = None.
Proof.
  destruct p as [l|]; cbn.
  - destruct (at_ as_JSONSchemaProps h l) as [s|] eqn:Hs;
      [intros _ | by intros [? [=]]].
    exists (Some (fresh (dom h))), (<[fresh (dom h) := obj_JSONSchemaProps s]> h).
    unfold bind, new, ret. rewrite (load_at _ _ _ _ Hs).
    split; [done |]. split; [apply new_subseteq |]. split.
    + cbn. by rewrite at_new.
    + intros l' ->%list_elem_of_singleton. apply fresh_free.
  - intros _. exists None, h. unfold ret. cbn. set_solver.
Qed.

Lemma Validation_DeepCopyInto_spec h (v : Validation) :
  is_Some (deref as_JSONSchemaProps h (OpenAPIV3Schema v)) →
  ∃ v' h',
    Validation_DeepCopyInto v h = Some (v', h') ∧ h ⊆ h' ∧
    deref as_JSONSchemaProps h' (OpenAPIV3Schema v')
      = deref as_JSONSchemaProps h (OpenAPIV3Schema v) ∧
    ∀ l, l ∈ cells (OpenAPIV3Schema v') → h !! l = None.
Proof.
  intros Hsome. unfold Validation_DeepCopyInto.
  destruct v as [[l|]]; cbn [OpenAPIV3Schema] in *.
  - destruct (JSONSchemaProps_DeepCopy_spec h (Some l) Hsome)
      as (p' & h' & Hcopy & Hsub & Hview & Hfresh).
    exists {| OpenAPIV3Schema := p' |}, h'. unfold bind.
    by rewrite Hcopy.
  - exists {| OpenAPIV3Schema := None |}, h. unfold ret. cbn. set_solver.
Qed.

Lemma CRDSpec_DeepCopyInto_spec h (spec : CRDSpec) :
  is_Some (view_Validation h (CRDSpec_Validation spec)) →
  ∃ spec' h',
    CRDSpec_DeepCopyInto spec h = Some (spec', h') ∧ h ⊆ h' ∧
    Names spec' = Names spec ∧
    view_Validation h' (CRDSpec_Validation spec')
      = view_Validation h (CRDSpec_Validation spec) ∧
    ∀ l, l ∈ footprint_Validation h' (CRDSpec_Validation spec') →
         h !! l = None.
Proof.
  intros Hsome. unfold CRDSpec_DeepCopyInto.
  destruct spec as [names [p|]]; cbn in *.
  2: { exists {| Names := names; CRDSpec_Validation := None |}, h.
       unfold ret. cbn. set_solver. }
  destruct (at_ as_Validation h p) as [v|] eqn:Hv; [| by destruct Hsome].
  cbn in Hsome.
  set (out := fresh (dom h)).
  set (h1 := <[out := obj_Validation Validation_zero]> h).
  assert (h ⊆ h1) as Hsub1 by apply new_subseteq.
  assert (h !! out = None) as Hout by apply fresh_free.
  assert (at_ as_Validation h1 p = Some v) as Hv1.
  { unfold at_ in *. destruct (h !! p) as [o|] eqn:Hp; [| done].
    by rewrite (lookup_weaken h h1 p o Hp Hsub1). }
  assert (is_Some (deref as_JSONSchemaProps h (OpenAPIV3Schema v))) as Hschema.
  { destruct (deref as_JSONSchemaProps h (OpenAPIV3Schema v));
      [by eexists | by destruct Hsome]. }
  assert (is_Some (deref as_JSONSchemaProps h1 (OpenAPIV3Schema v))) as Hschema1.
  { by rewrite (deref_mono as_JSONSchemaProps h h1). }
  destruct (Validation_DeepCopyInto_spec h1 v Hschema1)
    as (v' & h2 & Hcopy & Hsub2 & Hview & Hfresh).
  exists {| Names := names; CRDSpec_Validation := Some out |},
         (<[out := obj_Validation v']> h2).
  assert (∀ l, l ∈ cells (OpenAPIV3Schema v') → l ≠ out) as Hneq.
  { intros l Hl ->. apply Hfresh in Hl. unfold h1 in Hl.
    by rewrite lookup_insert_eq in Hl. }
  split.
  { unfold bind, new, store, ret. fold out. fold h1.
    by rewrite (load_at _ _ _ _ Hv1), Hcopy. }
  split.
  { apply insert_subseteq_r; [done |]. by etrans. }
  split; [done |]. cbn. rewrite !at_new. cbn. split.
  - rewrite (deref_agree as_JSONSchemaProps h2).
    + by rewrite Hview, (deref_mono as_JSONSchemaProps h h1).
    + intros l Hl. apply lookup_insert_ne. by apply not_eq_sym, Hneq.
  - intros l [->|Hl]%elem_of_cons; [done |].
    eapply lookup_weaken_None; [by apply Hfresh | done].
Qed.

Lemma ObjectMeta_DeepCopyInto_spec h (meta : ObjectMeta) :
  is_Some (deref as_Labels h (Labels meta)) →
  ∃ meta' h',
    ObjectMeta_DeepCopyInto meta h = Some (meta', h') ∧ h ⊆ h' ∧
    Name meta' = Name meta ∧
    deref as_Labels h' (Labels meta') = deref as_Labels h (Labels meta) ∧
    ∀ l, l ∈ cells (Labels meta') → h !! l = None.
Proof.
  intros Hsome. unfold ObjectMeta_DeepCopyInto.
  destruct meta as [name [p|]]; cbn [Labels Name] in *.
  2: { exists {| Name := name; Labels := None |}, h. unfold ret. set_solver. }
  cbn in Hsome.
  destruct (at_ as_Labels h p) as [m|] eqn:Hm; [| by destruct Hsome].
  set (out := fresh (dom h)).
  exists {| Name := name; Labels := Some out |}, (<[out := obj_Labels m]> h).
  split.
  { unfold bind, new, ret. rewrite (load_at _ _ _ _ Hm). fold out.
    rewrite (range_set_Label out m _ ∅) by apply lookup_insert_eq.
    by rewrite insert_insert_eq, (right_id_L ∅ (∪)). }
  split; [apply new_subseteq |]. split; [done |]. cbn. split.
  - by rewrite at_new, Hm.
  - intros l ->%list_elem_of_singleton. apply fresh_free.
Qed.

Lemma ConstraintTemplateSpec_DeepCopyInto_spec h (spec : ConstraintTemplateSpec) :
  is_Some (view_Validation h (CRDSpec_Validation (CRD_Spec (Spec_CRD spec)))) →
  is_Some (deref as_Targets h (Targets spec)) →
  ∃ spec' h',
    ConstraintTemplateSpec_DeepCopyInto spec h = Some (spec', h') ∧ h ⊆ h' ∧
    Names (CRD_Spec (Spec_CRD spec')) = Names (CRD_Spec (Spec_CRD spec)) ∧
    view_Validation h' (CRDSpec_Validation (CRD_Spec (Spec_CRD spec')))
      = view_Validation h (CRDSpec_Validation (CRD_Spec (Spec_CRD spec))) ∧
    deref as_Targets h' (Targets spec') = deref as_Targets h (Targets spec) ∧
    ∀ l, l ∈ (footprint_Validation h'
                (CRDSpec_Validation (CRD_Spec (Spec_CRD spec')))
              ++ cells (Targets spec'))%list →
         h !! l = None.
Proof.
  intros Hvalidation Htargets.
  unfold ConstraintTemplateSpec_DeepCopyInto, CRD_DeepCopyInto.
  destruct (CRDSpec_DeepCopyInto_spec h (CRD_Spec (Spec_CRD spec)) Hvalidation)
    as (crdspec' & h1 & Hcopy & Hsub1 & Hnames & Hview & Hfresh).
  assert (is_Some (view_Validation h1 (CRDSpec_Validation crdspec'))) as Hsome1
    by by rewrite Hview.
  destruct spec as [crd [p|]]; cbn [Targets Spec_CRD] in *.
  - cbn in Htargets.
    destruct (at_ as_Targets h p) as [m|] eqn:Hm; [| by destruct Htargets].
    assert (at_ as_Targets h1 p = Some m) as Hm1.
    { unfold at_ in *. destruct (h !! p) as [o|] eqn:Hp; [| done].
      by rewrite (lookup_weaken h h1 p o Hp Hsub1). }
    set (out := fresh (dom h1)).
    set (h2 := <[out := obj_Targets m]> h1).
    assert (h1 ⊆ h2) as Hsub2 by apply new_subseteq.
    exists {| Spec_CRD := {| CRD_Spec := crdspec' |}; Targets := Some out |}, h2.
    split.
    { unfold bind, new, ret. rewrite Hcopy, (load_at _ _ _ _ Hm1). fold out.
      rewrite (range_set_Target out m _ ∅) by apply lookup_insert_eq.
      by rewrite insert_insert_eq, (right_id_L ∅ (∪)). }
    split; [by etrans |]. split; [done |].
    destruct (view_Validation_mono h1 h2 _ Hsub2 Hsome1) as [Hview2 Hfoot2].
    cbn [Targets Spec_CRD CRD_Spec]. rewrite Hview2, Hfoot2.
    split; [done |]. split.
    + cbn. unfold h2. by rewrite at_new, Hm.
    + intros l [Hl | ->%list_elem_of_singleton]%elem_of_app; [by apply Hfresh |].
      eapply lookup_weaken_None; [apply fresh_free | done].
  - exists {| Spec_CRD := {| CRD_Spec := crdspec' |}; Targets := None |}, h1.
    split.
    { unfold bind, ret. by rewrite Hcopy. }
    split; [done |]. split; [done |]. cbn [Targets Spec_CRD CRD_Spec].
    split; [done |]. split; [done |].
    intros l [Hl | Hl]%elem_of_app; [by apply Hfresh | set_solver].
Qed.

Lemma ConstraintTemplate_DeepCopyInto_spec h (t : ConstraintTemplate) :
  is_Some (view_template h t) →
  ∃ t' h',
    ConstraintTemplate_DeepCopyInto t h = Some (t', h') ∧ h ⊆ h' ∧
    view_template h' t' = view_template h t ∧
    ∀ l, l ∈ footprint_template h' t' → h !! l = None.
Proof.
  intros Hsome. pose proof Hsome as Hsome'. unfold view_template in Hsome'.
  destruct (deref as_Labels h _) as [labels|] eqn:Hlabels;
    [| by destruct Hsome'].
  destruct (view_Validation h _) as [validation|] eqn:Hvalidation;
    [| by destruct Hsome'].
  destruct (deref as_Targets h _) as [targets|] eqn:Htargets;
    [| by destruct Hsome'].
  clear Hsome'.
  destruct (ObjectMeta_DeepCopyInto_spec h (Template_ObjectMeta t))
    as (meta' & h1 & Hmeta & Hsub1 & Hname & Hview1 & Hfresh1);
    [by rewrite Hlabels |].
  destruct (ConstraintTemplateSpec_DeepCopyInto_spec h1 (Spec t))
    as (spec' & h2 & Hspec & Hsub2 & Hnames & Hview2 & Htargets2 & Hfresh2).
  { destruct (view_Validation_mono h h1
                (CRDSpec_Validation (CRD_Spec (Spec_CRD (Spec t)))) Hsub1)
      as [-> _]; by rewrite Hvalidation. }
  { rewrite (deref_mono as_Targets h h1); [| done |]; by rewrite Htargets. }
  exists {| Template_TypeMeta := Template_TypeMeta t;
            Template_ObjectMeta := meta';
            Spec := spec';
            Status := Status t |}, h2.
  split.
  { unfold ConstraintTemplate_DeepCopyInto, bind, ret. by rewrite Hmeta, Hspec. }
  split; [by etrans |].
  assert (deref as_Labels h2 (Labels meta') = Some labels) as Hlabels2.
  { rewrite (deref_mono as_Labels h1 h2);
      [by rewrite Hview1 | done | by rewrite Hview1, Hlabels]. }
  split.
  - unfold view_template. cbn [Template_TypeMeta Template_ObjectMeta Spec Status].
    rewrite Hlabels2, Hview2, Htargets2, Hname, Hnames, Hlabels.
    destruct (view_Validation_mono h h1
                (CRDSpec_Validation (CRD_Spec (Spec_CRD (Spec t)))) Hsub1)
      as [-> _]; [by rewrite Hvalidation |].
    rewrite (deref_mono as_Targets h h1), Hvalidation, Htargets;
      [done | done | by rewrite Htargets].
  - unfold footprint_template.
    cbn [Template_TypeMeta Template_ObjectMeta Spec Status].
    intros l [Hl | Hl]%elem_of_app; [by apply Hfresh1 |].
    eapply lookup_weaken_None; [by apply Hfresh2 | done].
Qed.

Lemma deref_nil {A : Type} (as_ : object → option A) h p (x : option A) :
  deref as_ h p = Some x → (x = None ↔ p = None).
Proof.
  destruct p as [l|]; cbn.
  - destruct (at_ as_ h l); intros [= <-]; split; done.
  - intros [= <-]. split; done.
Qed.

Lemma view_Validation_nil h p (x : option ValidationValue) :
  view_Validation h p = Some x →
  (x = None ↔ p = None) ∧
  (∀ V, x = Some V →
     ∃ lv v, p = Some lv ∧ at_ as_Validation h lv = Some v ∧
             (value_OpenAPIV3Schema V = None ↔ OpenAPIV3Schema v = None)).
Proof.
  destruct p as [l|]; cbn.
  - destruct (at_ as_Validation h l) as [v|] eqn:Hv; [| done]. cbn.
    destruct (deref as_JSONSchemaProps h (OpenAPIV3Schema v)) as [s|] eqn:Hs;
      [| done].
    cbn. intros [= <-]. split; [split; done |].
    intros V [= <-]. exists l, v. repeat split; try done.
    all: by apply (deref_nil as_JSONSchemaProps h).
  - intros [= <-]. split; [split; done | done].
Qed.

Lemma view_template_nil h (t : ConstraintTemplate) (T : TemplateValue) :
  view_template h t = Some T →
  (value_Labels T = None ↔ Labels (Template_ObjectMeta t) = None) ∧
  (value_Validation T = None ↔
     CRDSpec_Validation (CRD_Spec (Spec_CRD (Spec t))) = None) ∧
  (value_Targets T = None ↔ Targets (Spec t) = None) ∧
  (∀ V, value_Validation T = Some V →
     ∃ lv v, CRDSpec_Validation (CRD_Spec (Spec_CRD (Spec t))) = Some lv ∧
             at_ as_Validation h lv = Some v ∧
             (value_OpenAPIV3Schema V = None ↔ OpenAPIV3Schema v = None)).
Proof.
  unfold view_template. intros Hview.
  destruct (deref as_Labels h _) as [labels|] eqn:Hlabels; [| done].
  destruct (view_Validation h _) as [validation|] eqn:Hvalidation; [| done].
  destruct (deref as_Targets h _) as [targets|] eqn:Htargets; [| done].
  cbn in Hview. injection Hview as <-. cbn.
  destruct (view_Validation_nil h _ _ Hvalidation) as [Hnil Hsome].
  split; [by eapply deref_nil |]. split; [done |].
  split; [by eapply deref_nil | done].
Qed.

(** A nil pointer is copied to a nil pointer, and the heap is left alone. *)
Remark DeepCopy_nil h : ConstraintTemplate_DeepCopy None h = Some (None, h).
Proof. reflexivity. Qed.

(** C9. The copy that [DeepCopy] makes of a well-formed template [T] at
    [p] is a template at a new address [p'] that shows the same value as
    [T], nil pointers and nil maps included; [T] still shows its value;
    every address that the copy is made of was free before the call, so the
    copy shares no object with [T]: its map of targets, its [Validation] and
    the schema below it are new objects with equal contents; and no run of
    writes to the objects of the copy changes what [T] shows, nor the other
    way round. *)
Theorem DeepCopy_independent h (p : loc) (T : TemplateValue) :
  view h p = Some T →
  ∃ (p' : loc) (h' : gmap loc object) (t' : ConstraintTemplate),
    ConstraintTemplate_DeepCopy (Some p) h = Some (Some p', h') ∧
    h ⊆ h' ∧
    view h' p' = Some T ∧
    view h' p = Some T ∧
    at_ as_ConstraintTemplate h' p' = Some t' ∧
    (value_Validation T = None ↔
       CRDSpec_Validation (CRD_Spec (Spec_CRD (Spec t'))) = None) ∧
    (∀ V, value_Validation T = Some V →
       ∃ lv v, CRDSpec_Validation (CRD_Spec (Spec_CRD (Spec t'))) = Some lv ∧
               at_ as_Validation h' lv = Some v ∧
               (value_OpenAPIV3Schema V = None ↔ OpenAPIV3Schema v = None)) ∧
    (value_Targets T = None ↔ Targets (Spec t') = None) ∧
    (∀ l, l ∈ footprint h' p' → h !! l = None) ∧
    (∀ l, l ∈ footprint h' p' → l ∉ footprint h' p) ∧
    (∀ ms, Forall (λ m, address m ∈ footprint h' p') ms →
           view (mutate ms h') p = Some T) ∧
    (∀ ms, Forall (λ m, address m ∈ footprint h' p) ms →
           view (mutate ms h') p' = Some T).
Proof.
  intros Hview.
  assert (is_Some (view h p)) as Hsome by by rewrite Hview.
  pose proof Hview as Hview0. unfold view in Hview0.
  destruct (at_ as_ConstraintTemplate h p) as [t|] eqn:Ht; [| done].
  cbn in Hview0.
  set (out := fresh (dom h)).
  set (h1 := <[out := obj_ConstraintTemplate ConstraintTemplate_zero]> h).
  assert (h ⊆ h1) as Hsub1 by apply new_subseteq.
  assert (h !! out = None) as Hout by apply fresh_free.
  assert (at_ as_ConstraintTemplate h1 p = Some t) as Ht1.
  { unfold at_ in *. destruct (h !! p) as [o|] eqn:Hp; [| done].
    by rewrite (lookup_weaken h h1 p o Hp Hsub1). }
  assert (view_template h1 t = Some T) as Hview1.
  { destruct (view_template_agree h h1 t) as [-> _]; [| done].
    apply (agree_of_subseteq h h1); [done |].
    apply view_template_allocated. by rewrite Hview0. }
  destruct (ConstraintTemplate_DeepCopyInto_spec h1 t)
    as (t' & h2 & Hcopy & Hsub2 & Hview2 & Hfresh2); [by rewrite Hview1 |].
  set (h3 := <[out := obj_ConstraintTemplate t']> h2).
  assert (h ⊆ h3) as Hsub3.
  { apply insert_subseteq_r; [done |]. by etrans. }
  assert (∀ l, l ∈ footprint_template h2 t' → h3 !! l = h2 !! l) as Hagree3.
  { intros l Hl. apply lookup_insert_ne. intros <-. apply Hfresh2 in Hl.
    unfold h1 in Hl. by rewrite lookup_insert_eq in Hl. }
  destruct (view_template_agree h2 h3 t' Hagree3) as [Hview3 Hfoot3].
  assert (at_ as_ConstraintTemplate h3 out = Some t') as Hat3
    by (unfold h3; by rewrite at_new).
  assert (view h3 out = Some T) as Hcopy_view.
  { unfold view. rewrite Hat3. cbn. by rewrite Hview3, Hview2. }
  destruct (view_mono h h3 p Hsub3 Hsome) as [Horig_view Horig_foot].
  assert (∀ l, l ∈ footprint h3 out → h !! l = None) as Hnew.
  { unfold footprint. rewrite Hat3, Hfoot3.
    intros l [->|Hl]%elem_of_cons; [done |].
    eapply lookup_weaken_None; [by apply Hfresh2 | done]. }
  assert (∀ l, l ∈ footprint h3 out → l ∉ footprint h3 p) as Hdisjoint.
  { intros l Hl Hl'. rewrite Horig_foot in Hl'.
    apply (view_allocated h p Hsome) in Hl' as [o Ho].
    apply Hnew in Hl. congruence. }
  destruct (view_template_nil h3 t' T) as (_ & Hnil_v & Hnil_t & Hnil_s);
    [by rewrite Hview3, Hview2 |].
  exists out, h3, t'.
  split.
  { unfold ConstraintTemplate_DeepCopy, bind, new, store, ret.
    fold out. fold h1. by rewrite (load_at _ _ _ _ Ht1), Hcopy. }
  repeat (split; [done |]).
  split; [by rewrite Horig_view |].
  repeat (split; [done |]).
  split.
  - intros ms Hms.
    destruct (view_agree h3 (mutate ms h3) p) as [-> _];
      [| by rewrite Horig_view].
    apply mutate_away. eapply Forall_impl; [exact Hms |].
    intros m Hm. by apply Hdisjoint.
  - intros ms Hms.
    destruct (view_agree h3 (mutate ms h3) out) as [-> _]; [| done].
    apply mutate_away. eapply Forall_impl; [exact Hms |].
    intros m Hm Hm'. by apply (Hdisjoint _ Hm').
Qed.

End deep_copy.

(** * Properties of the helper *)
Section client_properties.
Import client.
Context `{PackageNames} `{Platform}.

Lemma len_map_Some {V : Type} (m : gmap string V) : len_map (Some m) = size m.
Proof. reflexivity. Qed.

(** ** The aggregate of a list of field errors *)

Lemma ToAggregate_errs_sublist (text : field_Error → string)
    (seen : gset string) (errs : list field_Error) :
  ToAggregate_errs text seen errs `sublist_of` errs.
Proof.
  revert seen. induction errs as [|e errs IH]; intros seen; cbn; [done |].
  case_bool_decide; [apply sublist_cons | apply sublist_skip]; apply IH.
Qed.

Lemma ToAggregate_errs_unseen (text : field_Error → string)
    (seen : gset string) (errs : list field_Error) (e : field_Error) :
  e ∈ ToAggregate_errs text seen errs → text e ∉ seen.
Proof.
  revert seen. induction errs as [|e' errs IH]; intros seen; cbn.
  { by intros ?%elem_of_nil. }
  case_bool_decide as Hseen; [apply IH |].
  intros [-> | Hin%IH]%elem_of_cons; [done | set_solver].
Qed.

Lemma ToAggregate_errs_NoDup (text : field_Error → string)
    (seen : gset string) (errs : list field_Error) :
  NoDup (text <$> ToAggregate_errs text seen errs).
Proof.
  revert seen. induction errs as [|e errs IH]; intros seen; cbn.
  { constructor. }
  case_bool_decide as Hseen; [apply IH |].
  cbn. constructor; [| apply IH].
  intros (e' & Htext & Hin%ToAggregate_errs_unseen)%list_elem_of_fmap.
  set_solver.
Qed.

Lemma ToAggregate_errs_texts (text : field_Error → string)
    (seen : gset string) (errs : list field_Error) (e : field_Error) :
  e ∈ errs →
  text e ∈ seen ∨
  ∃ first, first ∈ ToAggregate_errs text seen errs ∧ text first = text e.
Proof.
  revert seen. induction errs as [|e' errs IH]; intros seen; cbn.
  { by intros ?%elem_of_nil. }
  intros [-> | Hin]%elem_of_cons.
  - case_bool_decide as Hseen; [by left | right].
    exists e'. split; [apply elem_of_cons; by left | done].
  - case_bool_decide as Hseen; [by apply IH |].
    destruct (IH ({[ text e' ]} ∪ seen) Hin) as [Hold | (first & Hfirst & Htext)].
    + apply elem_of_union in Hold as [->%elem_of_singleton | Hold]; [| by left].
      right. exists e'. split; [apply elem_of_cons; by left | done].
    + right. exists first. split; [apply elem_of_cons; by right | done].
Qed.

Lemma ToAggregate_errs_distinct (text : field_Error → string)
    (seen : gset string) (errs : list field_Error) :
  NoDup (text <$> errs) →
  (∀ e, e ∈ errs → text e ∉ seen) →
  ToAggregate_errs text seen errs = errs.
Proof.
  revert seen. induction errs as [|e errs IH]; intros seen; cbn; [done |].
  intros [Hfresh Hrest]%NoDup_cons Hseen.
  rewrite bool_decide_eq_false_2
    by (apply Hseen, elem_of_cons; by left).
  f_equal. apply IH; [done |].
  intros e' Hin [Heq%elem_of_singleton | Hold]%elem_of_union.
  - apply Hfresh, list_elem_of_fmap. by exists e'.
  - apply (Hseen e'); [apply elem_of_cons; by right | done].
Qed.

Lemma ToAggregate_errs_head (text : field_Error → string)
    (errs : list field_Error) :
  head (ToAggregate_errs text ∅ errs) = head errs.
Proof.
  destruct errs as [|e errs]; cbn; [done |].
  by rewrite bool_decide_eq_false_2 by set_solver.
Qed.

(** On a list that is not empty [ToAggregate] gives an aggregate: the first
    error is always held. *)
Lemma ToAggregate_Some (text : field_Error → string)
    (errs : list field_Error) :
  errs ≠ [] →
  ToAggregate text (Some errs)
  = Some (Aggregate (ToAggregate_errs text ∅ errs)).
Proof.
  intros Hne. unfold ToAggregate, NewAggregate.
  change (default [] (Some errs)) with errs.
  pose proof (ToAggregate_errs_head text errs) as Hhead.
  destruct errs as [|e errs]; [done |].
  destruct (ToAggregate_errs text ∅ (e :: errs)); [discriminate Hhead | done].
Qed.

Lemma ToAggregate_nil (text : field_Error → string) :
  ToAggregate text (Some []) = None ∧ ToAggregate text None = None.
Proof. done. Qed.

Lemma one_for_each_text_intro (errs : list field_Error) :
  one_for_each_text errs (ToAggregate_errs field_Error_Error ∅ errs).
Proof.
  split; [done |].
  split; [apply ToAggregate_errs_sublist |].
  split; [apply ToAggregate_errs_head |].
  split; [apply ToAggregate_errs_NoDup |].
  split.
  - intros err Hin.
    destruct (ToAggregate_errs_texts field_Error_Error ∅ errs err Hin)
      as [Hseen | Hheld]; [set_solver | done].
  - intros Hdistinct. apply ToAggregate_errs_distinct; [done | set_solver].
Qed.

(** C1. [validateTargets] returns an error exactly for the templates whose
    [Targets] is nil, is empty or has two or more entries, and [nil] exactly
    for the templates whose [Targets] has one entry. *)
Theorem validateTargets_cardinality (templ : templates.ConstraintTemplate) :
  (is_Some (validateTargets templ) ↔
     templates.Targets (templates.Spec templ) = None ∨
     ∃ m, templates.Targets (templates.Spec templ) = Some m ∧
          (size m = 0 ∨ 2 ≤ size m)%nat) ∧
  (validateTargets templ = None ↔
     ∃ m, templates.Targets (templates.Spec templ) = Some m ∧ size m = 1%nat).
Proof.
  unfold validateTargets.
  destruct (templates.Targets (templates.Spec templ)) as [m|] eqn:Htargets.
  - rewrite len_map_Some.
    destruct (Nat.ltb_spec 1 (size m)) as [Hmany|Hfew].
    { split; split.
      - intros _. right. exists m. split; [done | lia].
      - intros _. by eexists.
      - done.
      - intros (m' & [= <-] & Hone). lia. }
    rewrite bool_decide_eq_false_2 by done.
    destruct (Nat.eqb_spec (size m) 0) as [Hzero|Hpos].
    { split; split.
      - intros _. right. exists m. split; [done | lia].
      - intros _. by eexists.
      - done.
      - intros (m' & [= <-] & Hone). lia. }
    split; split.
    + intros [e He]. done.
    + intros [[=] | (m' & [= <-] & [Hz | Hge])]; lia.
    + intros _. exists m. split; [done | lia].
    + done.
  - cbn. split; split.
    + intros _. by left.
    + intros _. by eexists.
    + done.
    + intros (m & [=] & _).
Qed.

(** C2, as amended. Whatever the template and the target, a schema returned
    by [createSchema] declares no type, its [Type] being left empty, and has
    the single property [spec]; [spec] declares no type either and has
    [match], which is the target's fragment, and [enforcementAction], of type
    string; it has [parameters], which is the converted schema, exactly when
    the template declares a parameter schema, and no property besides these.
    The call fails only when a schema is declared and its conversion
    fails. *)
Theorem createSchema_shape (h : crdHelper)
    (templ : templates.ConstraintTemplate) (target : MatchSchemaProvider) :
  match createSchema h templ target with
  | inr schema =>
      ∃ spec,
        apiextensions.Type_ schema = "" ∧
        apiextensions.Properties schema = {[ "spec" := spec ]} ∧
        apiextensions.Type_ spec = "" ∧
        apiextensions.Properties spec !! "match" = Some (MatchSchema target) ∧
        apiextensions.Properties spec !! "enforcementAction" =
          Some (apiextensions.mkJSONSchemaProps "" "string" [] ∅) ∧
        (is_Some (apiextensions.Properties spec !! "parameters") ↔
           is_Some (declared_parameters templ)) ∧
        (∀ external, declared_parameters templ = Some external →
           ∃ internal,
             Convert_schema (scheme h) external = inr internal ∧
             apiextensions.Properties spec !! "parameters" = Some internal) ∧
        (∀ name, is_Some (apiextensions.Properties spec !! name) →
           name ∈ composed_names)
  | inl err =>
      ∃ external,
        declared_parameters templ = Some external ∧
        Convert_schema (scheme h) external = inl err
  end.
Proof.
  unfold createSchema, declared_parameters.
  destruct (templates.CRDSpec_Validation _) as [validation|]; cbn.
  1: destruct (templates.OpenAPIV3Schema validation) as [external|]; cbn.
  1: destruct (Convert_schema (scheme h) external) as [err|internal] eqn:Hconv;
     cbn; [by exists external |].
  all: eexists; split; [reflexivity |]; split; [reflexivity |]; cbn.
  all: repeat split; try done.
  all: try by (intros [? [=]]).
  all: try by (intros external' [= <-]; eauto).
  all: intros name [x Hx]; unfold composed_names.
  all: repeat (apply lookup_insert_Some in Hx as [[<- _] | [_ Hx]];
               [set_solver |]).
  all: by rewrite lookup_empty in Hx.
Qed.

(** C10. When the [Validation] of a template is present and holds no schema,
    [createSchema] succeeds whatever the scheme would answer to a conversion,
    the composed schema has no [parameters], and it is the schema composed
    for the same template without [Validation]. *)
Theorem createSchema_empty_Validation (h : crdHelper)
    (templ : templates.ConstraintTemplate) (target : MatchSchemaProvider)
    (validation : templates.Validation) :
  templates.CRDSpec_Validation
    (templates.CRD_Spec (templates.Spec_CRD (templates.Spec templ)))
    = Some validation →
  templates.OpenAPIV3Schema validation = None →
  ∃ schema spec,
    createSchema h templ target = inr schema ∧
    apiextensions.Properties schema = {[ "spec" := spec ]} ∧
    apiextensions.Properties spec !! "parameters" = None ∧
    (∀ h', createSchema h' templ target = inr schema) ∧
    createSchema h (without_Validation templ) target = inr schema.
Proof.
  intros Hvalidation Hschema. unfold createSchema.
  rewrite Hvalidation, Hschema. cbn.
  eexists _, _. split; [reflexivity |]. cbn.
  repeat split; done.
Qed.

Lemma createCRD_inr (h : crdHelper) (templ : templates.ConstraintTemplate)
    (schema : option apiextensions.JSONSchemaProps)
    (crd2 : apiextensions.CustomResourceDefinition) :
  createCRD h templ schema = inr crd2 →
  ∃ v1b1 crd1,
    Convert_to_v1beta1 (scheme h) (createCRD_crd templ schema) = inr v1b1 ∧
    Convert_from_v1beta1 (scheme h) (Default (scheme h) v1b1) = inr crd1 ∧
    crd2 = set_Name crd1 (strings_ToLower (template_Kind templ)
                          ++ "." ++ constraintGroup).
Proof.
  unfold createCRD, try.
  destruct (Convert_to_v1beta1 _ _) as [err|v1b1] eqn:Hto; [done |].
  destruct (Convert_from_v1beta1 _ _) as [err|crd1] eqn:Hfrom; [done |].
  intros [= <-]. by exists v1b1, crd1.
Qed.

(** C3. In the definition that [createCRD] returns, the object name is the
    kind of the template lower-cased by [strings.ToLower], a dot and the
    group of the package;
    and, the round trip keeping the names and the group that were set,
    [Plural] and [Singular] are the lower-cased kind, [ListKind] is the kind
    followed by [List], [Group] is the group of the package, and the object
    name is [Plural], a dot and [Group]. *)
Theorem createCRD_names (h : crdHelper) (templ : templates.ConstraintTemplate)
    (schema : option apiextensions.JSONSchemaProps)
    (crd2 : apiextensions.CustomResourceDefinition) :
  createCRD h templ schema = inr crd2 →
  round_trip_keeps (scheme h) apiextensions.Names (createCRD_crd templ schema) →
  round_trip_keeps (scheme h) apiextensions.Group (createCRD_crd templ schema) →
  let names := apiextensions.Names (apiextensions.Spec crd2) in
  let group := apiextensions.Group (apiextensions.Spec crd2) in
  let name := metav1.Name (apiextensions.ObjectMeta crd2) in
  name = strings_ToLower (template_Kind templ) ++ "." ++ constraintGroup ∧
  apiextensions.Plural names = strings_ToLower (template_Kind templ) ∧
  apiextensions.Singular names = strings_ToLower (template_Kind templ) ∧
  apiextensions.ListKind names = template_Kind templ ++ "List" ∧
  group = constraintGroup ∧
  name = apiextensions.Plural names ++ "." ++ group.
Proof.
  intros (v1b1 & crd1 & Hto & Hfrom & ->)%createCRD_inr Hnames Hgroup.
  cbn. rewrite (Hnames _ _ Hto Hfrom), (Hgroup _ _ Hto Hfrom). done.
Qed.

(** C4. The round trip keeping the versions that were set, the definition
    that [createCRD] returns declares two versions and no other: first the
    version of package [v1beta1], served and stored, then the version of
    package [v1alpha1], served and not stored. *)
Theorem createCRD_versions (h : crdHelper)
    (templ : templates.ConstraintTemplate)
    (schema : option apiextensions.JSONSchemaProps)
    (crd2 : apiextensions.CustomResourceDefinition) :
  createCRD h templ schema = inr crd2 →
  round_trip_keeps (scheme h) apiextensions.Versions
    (createCRD_crd templ schema) →
  apiextensions.Versions (apiextensions.Spec crd2) =
    [ {| apiextensions.Name := v1beta1_Version;
         apiextensions.Served := true;
         apiextensions.Storage := true |};
      {| apiextensions.Name := v1alpha1_Version;
         apiextensions.Served := true;
         apiextensions.Storage := false |} ] ∧
  List.length (apiextensions.Versions (apiextensions.Spec crd2)) = 2%nat.
Proof.
  intros (v1b1 & crd1 & Hto & Hfrom & ->)%createCRD_inr Hversions.
  cbn. by rewrite (Hversions _ _ Hto Hfrom).
Qed.

(** [validateCR] once the validator is built and the schema validation has
    reported nothing: the four identity checks, in their order. *)
Lemma validateCR_identity (h : crdHelper) (cr : Unstructured)
    (crd : apiextensions.CustomResourceDefinition)
    (validator : SchemaValidator) :
  NewSchemaValidator (apiextensions.Validation (apiextensions.Spec crd))
    = inr validator →
  ValidateCustomResource cr validator = None →
  let kind := apiextensions.Kind (apiextensions.Names (apiextensions.Spec crd)) in
  validateCR h cr crd =
    if negb (List.length (IsDNS1123Subdomain (GetName cr)) =? 0)%nat
    then Some (InvalidName cr)
    else if negb (String.eqb (GetKind cr) kind) then Some (WrongKind cr kind)
    else if negb (String.eqb (gvk_Group (GroupVersionKind cr)) constraintGroup)
    then Some (WrongGroup cr)
    else if negb (index_bool supportedVersions
                    (gvk_Version (GroupVersionKind cr)))
    then Some (WrongVersion cr)
    else None.
Proof. intros Hnew Hvalid. unfold validateCR. by rewrite Hnew, Hvalid. Qed.

(** C5. [validateCR] runs its six steps in order and returns at the first
    one that fails: (1) a validator that cannot be built gives its error;
    (2) otherwise field errors of the schema validation give their aggregate,
    whatever the name, kind, group and version of the instance are; (3)
    otherwise a name that fails the syntax check gives the name error; (4)
    otherwise a kind that differs gives the kind error; (5) otherwise a group
    that differs gives the group error; (6) otherwise a version that is not
    supported gives the version error, and a supported one gives [nil]. *)
Theorem validateCR_order (h : crdHelper) (cr : Unstructured)
    (crd : apiextensions.CustomResourceDefinition) :
  let kind := apiextensions.Kind (apiextensions.Names (apiextensions.Spec crd)) in
  let build :=
    NewSchemaValidator (apiextensions.Validation (apiextensions.Spec crd)) in
  (∀ err, build = inl err → validateCR h cr crd = Some err) ∧
  (∀ validator, build = inr validator →
     (∀ errs, ValidateCustomResource cr validator = Some errs → errs ≠ [] →
        validateCR h cr crd
        = Some (Aggregate (ToAggregate_errs field_Error_Error ∅ errs))) ∧
     (ValidateCustomResource cr validator = None →
        (IsDNS1123Subdomain (GetName cr) ≠ [] →
           validateCR h cr crd = Some (InvalidName cr)) ∧
        (IsDNS1123Subdomain (GetName cr) = [] →
           (GetKind cr ≠ kind → validateCR h cr crd = Some (WrongKind cr kind)) ∧
           (GetKind cr = kind →
              (gvk_Group (GroupVersionKind cr) ≠ constraintGroup →
                 validateCR h cr crd = Some (WrongGroup cr)) ∧
              (gvk_Group (GroupVersionKind cr) = constraintGroup →
                 (index_bool supportedVersions
                    (gvk_Version (GroupVersionKind cr)) = false →
                    validateCR h cr crd = Some (WrongVersion cr)) ∧
                 (index_bool supportedVersions
                    (gvk_Version (GroupVersionKind cr)) = true →
                    validateCR h cr crd = None)))))).
Proof.
  cbv zeta. split.
  { intros err Hnew. unfold validateCR. by rewrite Hnew. }
  intros validator Hnew. split.
  { intros errs Hvalid Hne. unfold validateCR. rewrite Hnew, Hvalid.
    by apply ToAggregate_Some. }
  intros Hvalid. rewrite (validateCR_identity h cr crd validator Hnew Hvalid).
  cbv zeta. split.
  { intros Hname. destruct (IsDNS1123Subdomain (GetName cr)); done. }
  intros ->. cbn. split.
  { intros Hkind%String.eqb_neq. by rewrite Hkind. }
  intros ->. rewrite String.eqb_refl. cbn. split.
  { intros Hgroup%String.eqb_neq. by rewrite Hgroup. }
  intros ->. rewrite String.eqb_refl. cbn. split; by intros ->.
Qed.

(** The schema validation step compares the list with [nil], not its length
    with zero: on a list that is empty and not nil the call ends with [nil]
    and the identity checks are not reached.  The validator of the platform
    answers [nil] when it has nothing to report. *)
Remark validateCR_empty_list (h : crdHelper) (cr : Unstructured)
    (crd : apiextensions.CustomResourceDefinition)
    (validator : SchemaValidator) :
  NewSchemaValidator (apiextensions.Validation (apiextensions.Spec crd))
    = inr validator →
  ValidateCustomResource cr validator = Some [] →
  validateCR h cr crd = None.
Proof. intros Hnew Hvalid. unfold validateCR. by rewrite Hnew, Hvalid. Qed.

(** C6, as amended. For an instance whose kind differs from the kind of the
    definition, [validateCR] returns the kind error, which names the kind of
    the instance and the kind of the definition, when the validator is
    built, the schema validation reports nothing and the name passes the
    syntax check. *)
Theorem validateCR_wrong_kind (h : crdHelper) (cr : Unstructured)
    (crd : apiextensions.CustomResourceDefinition)
    (validator : SchemaValidator) :
  NewSchemaValidator (apiextensions.Validation (apiextensions.Spec crd))
    = inr validator →
  ValidateCustomResource cr validator = None →
  IsDNS1123Subdomain (GetName cr) = [] →
  GetKind cr ≠ apiextensions.Kind (apiextensions.Names (apiextensions.Spec crd)) →
  validateCR h cr crd =
    Some (fmt_Errorf "Wrong kind for constraint %s. Have %s, want %s"
            [arg_string (GetName cr); arg_string (GetKind cr);
             arg_string (apiextensions.Kind
                           (apiextensions.Names (apiextensions.Spec crd)))]).
Proof.
  intros Hnew Hvalid Hname Hkind%String.eqb_neq.
  rewrite (validateCR_identity h cr crd validator Hnew Hvalid).
  cbv zeta. by rewrite Hname, Hkind.
Qed.

Lemma index_supportedVersions (version : string) :
  index_bool supportedVersions version = true ↔
  version = v1alpha1_Version ∨ version = v1beta1_Version.
Proof.
  unfold index_bool, supportedVersions.
  destruct (decide (version = v1beta1_Version)) as [->|Hbeta].
  { rewrite lookup_insert_eq. cbn. split; auto. }
  rewrite lookup_insert_ne by done.
  destruct (decide (version = v1alpha1_Version)) as [->|Halpha].
  { rewrite lookup_insert_eq. cbn. split; auto. }
  rewrite lookup_insert_ne, lookup_empty by done. cbn.
  split; [done | by intros [|]].
Qed.

(** C7. The versions that [supportedVersions] accepts are the versions of
    packages [v1alpha1] and [v1beta1] and no other, and they are the versions
    that [createCRD] declares in a definition.  Where the first five steps of
    [validateCR] pass, it returns [nil] exactly when the version of the
    instance is one of the two, and otherwise the version error, which holds
    the version of the instance and the supported versions. *)
Theorem validateCR_versions :
  (∀ version,
     index_bool supportedVersions version = true ↔
     version = v1alpha1_Version ∨ version = v1beta1_Version) ∧
  (∀ templ schema version,
     index_bool supportedVersions version = true ↔
     version ∈ apiextensions.Name <$>
       apiextensions.Versions (apiextensions.Spec (createCRD_crd templ schema))) ∧
  (∀ (h : crdHelper) (cr : Unstructured)
     (crd : apiextensions.CustomResourceDefinition)
     (validator : SchemaValidator),
     NewSchemaValidator (apiextensions.Validation (apiextensions.Spec crd))
       = inr validator →
     ValidateCustomResource cr validator = None →
     IsDNS1123Subdomain (GetName cr) = [] →
     GetKind cr = apiextensions.Kind (apiextensions.Names (apiextensions.Spec crd)) →
     gvk_Group (GroupVersionKind cr) = constraintGroup →
     let version := gvk_Version (GroupVersionKind cr) in
     (validateCR h cr crd = None ↔
        version = v1alpha1_Version ∨ version = v1beta1_Version) ∧
     (¬ (version = v1alpha1_Version ∨ version = v1beta1_Version) →
        validateCR h cr crd =
          Some (fmt_Errorf
                  "Wrong version for constraint %s. Have %s, supported: %v"
                  [arg_string (GetName cr); arg_string version;
                   arg_map supportedVersions]))).
Proof.
  split; [exact index_supportedVersions |]. split.
  { intros templ schema version. rewrite index_supportedVersions. cbn.
    rewrite !elem_of_cons, elem_of_nil. tauto. }
  intros h cr crd validator Hnew Hvalid Hname Hkind Hgroup version.
  rewrite (validateCR_identity h cr crd validator Hnew Hvalid).
  cbv zeta. rewrite Hname, Hkind, Hgroup, !String.eqb_refl. cbn.
  rewrite <- index_supportedVersions. fold version.
  destruct (index_bool supportedVersions version); cbn; split; done.
Qed.

(** C8, as amended. [validateCRD] returns [nil] exactly when the structural
    validation of the platform reports no error.  Otherwise it returns one
    aggregate, built by the platform from the whole list of reported errors:
    the aggregate holds one error for each distinct text, namely the first
    reported with that text, in the order of the list, so that the first
    error is always held, the text of every reported error is the text of an
    error held, and a list without a repeated text is held as it is.  The
    schema validation step of [validateCR] returns the aggregate of its list
    in the same way. *)
Theorem validateCRD_aggregates :
  (∀ (h : crdHelper) (crd : apiextensions.CustomResourceDefinition),
     validateCRD h crd = None ↔
     len_ErrorList (ValidateCustomResourceDefinition crd) = 0%nat) ∧
  (∀ (h : crdHelper) (crd : apiextensions.CustomResourceDefinition) errs,
     ValidateCustomResourceDefinition crd = Some errs → errs ≠ [] →
     ∃ held,
       validateCRD h crd = Some (Aggregate held) ∧
       held ≠ [] ∧ one_for_each_text errs held) ∧
  (∀ (h : crdHelper) (cr : Unstructured)
     (crd : apiextensions.CustomResourceDefinition)
     (validator : SchemaValidator) errs,
     NewSchemaValidator (apiextensions.Validation (apiextensions.Spec crd))
       = inr validator →
     ValidateCustomResource cr validator = Some errs → errs ≠ [] →
     ∃ held,
       validateCR h cr crd = Some (Aggregate held) ∧
       held ≠ [] ∧ one_for_each_text errs held).
Proof.
  assert (∀ errs : list field_Error, errs ≠ [] →
            ToAggregate_errs field_Error_Error ∅ errs ≠ []) as Hheld.
  { intros errs Hne Hnil.
    pose proof (ToAggregate_errs_head field_Error_Error errs) as Hhead.
    rewrite Hnil in Hhead. by destruct errs. }
  split; [| split].
  - intros h crd. unfold validateCRD.
    destruct (ValidateCustomResourceDefinition crd) as [[|e errs]|]; cbn [len_ErrorList List.length Nat.ltb Nat.leb];
      [done | | done].
    by rewrite ToAggregate_Some.
  - intros h crd errs Herrs Hne. unfold validateCRD. rewrite Herrs.
    exists (ToAggregate_errs field_Error_Error ∅ errs).
    split; [| split; [by apply Hheld | apply one_for_each_text_intro]].
    destruct errs as [|e errs]; [done |]. by rewrite ToAggregate_Some.
  - intros h cr crd validator errs Hnew Hvalid Hne. unfold validateCR.
    rewrite Hnew, Hvalid.
    exists (ToAggregate_errs field_Error_Error ∅ errs).
    split; [by apply ToAggregate_Some |].
    split; [by apply Hheld | apply one_for_each_text_intro].
Qed.

End client_properties.

(** * The properties at work on the small platform *)
Section checks.
Import client.

Example validateTargets_one :
  validateTargets (demo.template demo.one_target None) = None.
Proof. reflexivity. Qed.

Example validateTargets_nil :
  validateTargets (demo.template None None) =
    Some (errors_New ("Field " ++ dquote ++ "targets" ++ dquote ++
                      " not specified in ConstraintTemplate spec")).
Proof. reflexivity. Qed.

Example validateTargets_empty :
  validateTargets (demo.template (Some ∅) None) =
    Some (errors_New
            "No targets specified. ConstraintTemplate must specify one target").
Proof. vm_compute. reflexivity. Qed.

Example validateTargets_two :
  validateTargets
    (demo.template
       (Some (<["t2" := {| templates.Rego := "package t2" |}]>
                {[ "t1" := {| templates.Rego := "package t1" |} ]}))
       None) =
    Some (errors_New "Multi-target templates are not currently supported").
Proof. vm_compute. reflexivity. Qed.

(** Scenario A: a template with one target and no parameter schema. *)
Example synthesize_without_parameters :
  ∃ crd schema spec,
    demo.synthesize (demo.template demo.one_target None) = inr crd ∧
    apiextensions.Plural (apiextensions.Names (apiextensions.Spec crd))
      = "k8srequiredlabels" ∧
    apiextensions.ListKind (apiextensions.Names (apiextensions.Spec crd))
      = "K8sRequiredLabelsList" ∧
    List.length (apiextensions.Versions (apiextensions.Spec crd)) = 2%nat ∧
    apiextensions.Validation (apiextensions.Spec crd)
      = Some {| apiextensions.OpenAPIV3Schema := Some schema |} ∧
    apiextensions.Properties schema = {[ "spec" := spec ]} ∧
    dom (apiextensions.Properties spec) = {[ "match"; "enforcementAction" ]}.
Proof.
  eexists _, _, _. split; [vm_compute; reflexivity |]. cbn.
  repeat split.
Qed.

(** Scenario B: a name with capitals and underscores. *)
Example validateCR_bad_name :
  @validateCR demo.names demo.platform demo.helper
    (demo.instance "My_Bad_Name" "K8sRequiredLabels" "v1beta1" demo.good_labels)
    demo.definition
  = Some (fmt_Errorf "Invalid Name: %s"
            [arg_string "a DNS-1123 subdomain must consist of lower case alphanumeric characters, - or ."]).
Proof. vm_compute. reflexivity. Qed.

Lemma createCRD_required_labels :
  @createSchema demo.helper demo.required_labels demo.target
    = inr demo.composed ∧
  @createCRD demo.names demo.platform demo.helper demo.required_labels (Some demo.composed)
    = inr demo.definition.
Proof. split; vm_compute; reflexivity. Qed.

Lemma copying_keeps {A : Type}
    (f : apiextensions.CustomResourceDefinitionSpec → A)
    (crd : apiextensions.CustomResourceDefinition) :
  apiextensions.Scope (apiextensions.Spec crd) = "Cluster" →
  round_trip_keeps demo.copying f crd.
Proof.
  intros Hscope v1b1 crd2 Hto Hfrom. destruct crd as [meta []].
  cbn in *. by simplify_eq.
Qed.

(** The validator that the small platform builds for [demo.definition]. *)
Lemma definition_validator :
  @NewSchemaValidator demo.platform
    (apiextensions.Validation (apiextensions.Spec demo.definition))
  = inr (Some demo.composed).
Proof. vm_compute. reflexivity. Qed.

Lemma createCRD_names_witness :
  @createCRD demo.names demo.platform demo.helper demo.required_labels (Some demo.composed)
    = inr demo.definition ∧
  let names := apiextensions.Names (apiextensions.Spec demo.definition) in
  metav1.Name (apiextensions.ObjectMeta demo.definition)
    = "k8srequiredlabels.constraints.gatekeeper.sh" ∧
  apiextensions.Plural names = "k8srequiredlabels" ∧
  apiextensions.Singular names = "k8srequiredlabels" ∧
  apiextensions.ListKind names = "K8sRequiredLabelsList" ∧
  apiextensions.Group (apiextensions.Spec demo.definition)
    = "constraints.gatekeeper.sh".
Proof.
  split; [exact (proj2 createCRD_required_labels) |].
  destruct (@createCRD_names demo.names demo.platform demo.helper demo.required_labels
              (Some demo.composed) demo.definition
              (proj2 createCRD_required_labels)
              (copying_keeps apiextensions.Names
                 (@createCRD_crd demo.names demo.platform demo.required_labels
                    (Some demo.composed)) eq_refl)
              (copying_keeps apiextensions.Group
                 (@createCRD_crd demo.names demo.platform demo.required_labels
                    (Some demo.composed)) eq_refl))
    as (Hname & Hplural & Hsingular & Hlist & Hgroup & _).
  repeat split; assumption.
Defined.

Lemma createCRD_versions_witness :
  apiextensions.Versions (apiextensions.Spec demo.definition) =
    [ {| apiextensions.Name := "v1beta1";
         apiextensions.Served := true;
         apiextensions.Storage := true |};
      {| apiextensions.Name := "v1alpha1";
         apiextensions.Served := true;
         apiextensions.Storage := false |} ].
Proof.
  exact (proj1 (@createCRD_versions demo.names demo.platform demo.helper demo.required_labels
                  (Some demo.composed) demo.definition
                  (proj2 createCRD_required_labels)
                  (copying_keeps apiextensions.Versions
                     (@createCRD_crd demo.names demo.platform demo.required_labels
                        (Some demo.composed)) eq_refl))).
Defined.

(** A body that violates the schema and a wrong kind: the schema error. *)
Lemma validateCR_order_witness :
  @validateCR demo.names demo.platform demo.helper
    (demo.instance "my-labels" "Other" "v1beta1" demo.bad_labels)
    demo.definition
  = Some (Aggregate [ {| ErrField := ".spec.parameters.labels";
                         ErrDetail := "Invalid type" |} ]).
Proof.
  destruct (@validateCR_order demo.names demo.platform demo.helper
              (demo.instance "my-labels" "Other" "v1beta1" demo.bad_labels)
              demo.definition) as [_ Hsteps].
  destruct (Hsteps (Some demo.composed) definition_validator) as [Hschema _].
  refine (eq_trans
            (Hschema [ {| ErrField := ".spec.parameters.labels";
                          ErrDetail := "Invalid type" |} ] _ _) _);
    [vm_compute; reflexivity | discriminate | vm_compute; reflexivity].
Defined.

(** C6 as it is stated fails: the instance below has kind [Other], the
    definition expects [K8sRequiredLabels], the name passes the syntax check,
    and [validateCR] returns the error of the schema validation, not the
    kind error, because the body of the instance violates the schema. *)
Lemma validateCR_wrong_kind_counterexample :
  let cr := demo.instance "my-labels" "Other" "v1beta1" demo.bad_labels in
  @GetKind demo.platform cr = "Other" ∧
  apiextensions.Kind (apiextensions.Names (apiextensions.Spec demo.definition))
    = "K8sRequiredLabels" ∧
  @IsDNS1123Subdomain demo.platform (@GetName demo.platform cr) = [] ∧
  @validateCR demo.names demo.platform demo.helper cr demo.definition
    = Some (Aggregate [ {| ErrField := ".spec.parameters.labels";
                           ErrDetail := "Invalid type" |} ]) ∧
  @validateCR demo.names demo.platform demo.helper cr demo.definition
    ≠ Some (fmt_Errorf "Wrong kind for constraint %s. Have %s, want %s"
              [arg_string "my-labels"; arg_string "Other";
               arg_string "K8sRequiredLabels"]).
Proof.
  cbv zeta. repeat split; try (vm_compute; reflexivity).
  vm_compute. discriminate.
Qed.

Lemma validateCR_wrong_kind_witness :
  @validateCR demo.names demo.platform demo.helper
    (demo.instance "my-labels" "Other" "v1beta1" demo.good_labels)
    demo.definition
  = Some (fmt_Errorf "Wrong kind for constraint %s. Have %s, want %s"
            [arg_string "my-labels"; arg_string "Other";
             arg_string "K8sRequiredLabels"]).
Proof.
  apply (@validateCR_wrong_kind demo.names demo.platform demo.helper
           (demo.instance "my-labels" "Other" "v1beta1" demo.good_labels)
           demo.definition (Some demo.composed) definition_validator);
    [vm_compute; reflexivity | vm_compute; reflexivity | vm_compute; discriminate].
Defined.

Lemma validateCR_versions_witness :
  (@validateCR demo.names demo.platform demo.helper
     (demo.instance "my-labels" "K8sRequiredLabels" "v1alpha1" demo.good_labels)
     demo.definition = None) ∧
  (@validateCR demo.names demo.platform demo.helper
     (demo.instance "my-labels" "K8sRequiredLabels" "v1" demo.good_labels)
     demo.definition
   = Some (fmt_Errorf "Wrong version for constraint %s. Have %s, supported: %v"
             [arg_string "my-labels"; arg_string "v1";
              arg_map (@supportedVersions demo.names)])).
Proof.
  pose proof (proj2 (proj2 (@validateCR_versions demo.names demo.platform)))
    as Hversions.
  split.
  - apply (Hversions demo.helper
             (demo.instance "my-labels" "K8sRequiredLabels" "v1alpha1"
                demo.good_labels)
             demo.definition (Some demo.composed) definition_validator);
      try (vm_compute; reflexivity).
    by left.
  - apply (Hversions demo.helper
             (demo.instance "my-labels" "K8sRequiredLabels" "v1"
                demo.good_labels)
             demo.definition (Some demo.composed) definition_validator);
      try (vm_compute; reflexivity).
    intros [Hv | Hv]; vm_compute in Hv; discriminate.
Defined.

Lemma validateCRD_aggregates_witness :
  @validateCRD demo.platform demo.helper demo.nameless
  = Some (Aggregate
            [ {| ErrField := "spec.names.kind"; ErrDetail := "Required value" |};
              {| ErrField := "spec.names.plural"; ErrDetail := "Required value" |} ]) ∧
  @validateCRD demo.platform demo.helper demo.definition = None.
Proof.
  destruct (@validateCRD_aggregates demo.names demo.platform) as (Hnil & Hall & _).
  split.
  - destruct (Hall demo.helper demo.nameless
                [ {| ErrField := "spec.names.kind";
                     ErrDetail := "Required value" |};
                  {| ErrField := "spec.names.plural";
                     ErrDetail := "Required value" |} ])
      as (held & Hheld & _ & Heq & _);
      [vm_compute; reflexivity | discriminate |].
    rewrite Hheld, Heq. vm_compute. reflexivity.
  - apply Hnil. vm_compute. reflexivity.
Defined.

(** C8 as it is stated fails on a list in which a text repeats: the
    structural validation below reports four errors, the missing kind and
    the missing plural name twice each, and the aggregate that [validateCRD]
    returns holds two of them, not every reported error. *)
Lemma validateCRD_aggregates_counterexample :
  let kind := {| ErrField := "spec.names.kind"; ErrDetail := "Required value" |} in
  let plural :=
    {| ErrField := "spec.names.plural"; ErrDetail := "Required value" |} in
  @ValidateCustomResourceDefinition demo_more.two_passes demo.nameless
    = Some [kind; plural; kind; plural] ∧
  @validateCRD demo_more.two_passes demo.helper demo.nameless
    = Some (Aggregate [kind; plural]) ∧
  @validateCRD demo_more.two_passes demo.helper demo.nameless
    ≠ Some (Aggregate [kind; plural; kind; plural]).
Proof.
  cbv zeta. repeat split; try (vm_compute; reflexivity).
  vm_compute. discriminate.
Qed.

(** C2 as it is stated fails where it calls the composed schema an object
    schema: in the schema composed for the required-labels template the
    type of the schema and the type of its property [spec] are empty, while
    the fragment of the target under [match] does declare the type
    object. *)
Lemma createSchema_shape_counterexample :
  ∃ schema spec,
    @createSchema demo.helper demo.required_labels demo.target = inr schema ∧
    apiextensions.Properties schema !! "spec" = Some spec ∧
    apiextensions.Type_ schema = "" ∧
    apiextensions.Type_ schema ≠ "object" ∧
    apiextensions.Type_ spec = "" ∧
    apiextensions.Type_ spec ≠ "object" ∧
    apiextensions.Type_ <$> apiextensions.Properties spec !! "match"
      = Some "object".
Proof.
  eexists _, _. split; [vm_compute; reflexivity |].
  split; [vm_compute; reflexivity |].
  repeat split; try (vm_compute; reflexivity); vm_compute; discriminate.
Qed.

(** A [Validation] that holds no schema, and a scheme that would refuse the
    conversion. *)
Lemma createSchema_empty_Validation_witness :
  ∃ schema spec,
    @createSchema {| scheme := demo.refusing |}
      (demo.template demo.one_target
         (Some {| templates.OpenAPIV3Schema := None |}))
      demo.target = inr schema ∧
    apiextensions.Properties schema = {[ "spec" := spec ]} ∧
    apiextensions.Properties spec !! "parameters" = None.
Proof.
  destruct (createSchema_empty_Validation {| scheme := demo.refusing |}
              (demo.template demo.one_target
                 (Some {| templates.OpenAPIV3Schema := None |}))
              demo.target {| templates.OpenAPIV3Schema := None |}
              eq_refl eq_refl)
    as (schema & spec & Hcreate & Hspec & Hnone & _).
  exists schema, spec. exact (conj Hcreate (conj Hspec Hnone)).
Defined.

(** The copy of the stored template, and a write to the targets of the
    copy. *)
Lemma DeepCopy_independent_witness :
  v1alpha1.view demo.heap 1%positive = Some demo.stored_value ∧
  ∃ p' h',
    v1alpha1.ConstraintTemplate_DeepCopy (Some 1%positive) demo.heap
      = Some (Some p', h') ∧
    v1alpha1.view h' p' = Some demo.stored_value ∧
    (∀ l, l ∈ v1alpha1.footprint h' p' → demo.heap !! l = None) ∧
    (∀ ms, Forall (λ m, v1alpha1.address m ∈ v1alpha1.footprint h' p') ms →
           v1alpha1.view (v1alpha1.mutate ms h') 1%positive
             = Some demo.stored_value).
Proof.
  assert (v1alpha1.view demo.heap 1%positive = Some demo.stored_value) as Hview
    by (vm_compute; reflexivity).
  split; [exact Hview |].
  destruct (DeepCopy_independent demo.heap 1%positive demo.stored_value Hview)
    as (p' & h' & t' & Hcopy & _ & Hsame & _ & _ & _ & _ & _ & Hnew & _ & Hmut & _).
  exists p', h'. exact (conj Hcopy (conj Hsame (conj Hnew Hmut))).
Defined.

Example DeepCopy_then_write :
  ∃ h',
    v1alpha1.ConstraintTemplate_DeepCopy (Some 1%positive) demo.heap
      = Some (Some 6%positive, h') ∧
    v1alpha1.footprint h' 6%positive
      = [6%positive; 7%positive; 8%positive; 9%positive; 10%positive] ∧
    let h'' :=
      v1alpha1.mutate
        [ {| v1alpha1.address := 10%positive;
             v1alpha1.new_object := v1alpha1.obj_Targets ∅ |} ] h' in
    v1alpha1.view h'' 1%positive = Some demo.stored_value ∧
    v1alpha1.view h'' 6%positive ≠ Some demo.stored_value.
Proof.
  eexists. split; [vm_compute; reflexivity |].
  split; [vm_compute; reflexivity |]. cbv zeta.
  split; [vm_compute; reflexivity |]. vm_compute. discriminate.
Qed.

End checks.

(** * Further properties of the generated copies *)
Section more_deep_copy.
Import v1alpha1 v1alpha1_lists.

Implicit Types (h : gmap loc object) (l : loc) (p : option loc).

Lemma view_template_mono h h' (t : ConstraintTemplate) :
  h ⊆ h' → is_Some (view_template h t) →
  view_template h' t = view_template h t ∧
  footprint_template h' t = footprint_template h t.
Proof.
  intros Hsub Hsome. apply view_template_agree.
  apply (agree_of_subseteq h h'); [done |]. by apply view_template_allocated.
Qed.

(** [DeepCopy] on a well-formed template: a new address that shows the same
    value and is made of addresses that were free. *)
Lemma DeepCopy_fresh h (l : loc) (T : TemplateValue) :
  view h l = Some T →
  ∃ (l' : loc) (h' : gmap loc object),
    ConstraintTemplate_DeepCopy (Some l) h = Some (Some l', h') ∧
    h ⊆ h' ∧
    view h' l' = Some T ∧
    ∀ a, a ∈ footprint h' l' → h !! a = None.
Proof.
  intros Hview. unfold view in Hview.
  destruct (at_ as_ConstraintTemplate h l) as [t|] eqn:Ht; [| done].
  cbn in Hview.
  set (out := fresh (dom h)).
  set (h1 := <[out := obj_ConstraintTemplate ConstraintTemplate_zero]> h).
  assert (h ⊆ h1) as Hsub1 by apply new_subseteq.
  assert (h !! out = None) as Hout by apply fresh_free.
  assert (at_ as_ConstraintTemplate h1 l = Some t) as Ht1.
  { unfold at_ in *. destruct (h !! l) as [o|] eqn:Hl; [| done].
    by rewrite (lookup_weaken h h1 l o Hl Hsub1). }
  destruct (view_template_mono h h1 t Hsub1) as [Hview1 _];
    [by rewrite Hview |].
  destruct (ConstraintTemplate_DeepCopyInto_spec h1 t)
    as (t' & h2 & Hcopy & Hsub2 & Hview2 & Hfresh2);
    [by rewrite Hview1, Hview |].
  set (h3 := <[out := obj_ConstraintTemplate t']> h2).
  assert (∀ a, a ∈ footprint_template h2 t' → h3 !! a = h2 !! a) as Hagree3.
  { intros a Ha. apply lookup_insert_ne. intros <-. apply Hfresh2 in Ha.
    unfold h1 in Ha. by rewrite lookup_insert_eq in Ha. }
  destruct (view_template_agree h2 h3 t' Hagree3) as [Hview3 Hfoot3].
  assert (at_ as_ConstraintTemplate h3 out = Some t') as Hat3
    by (unfold h3; by rewrite at_new).
  exists out, h3. split.
  { unfold ConstraintTemplate_DeepCopy, v1alpha1.bind, new, store, v1alpha1.ret.
    fold out. fold h1. by rewrite (load_at _ _ _ _ Ht1), Hcopy. }
  split.
  { apply insert_subseteq_r; [done |]. by etrans. }
  split.
  { unfold view. rewrite Hat3. cbn. by rewrite Hview3, Hview2, Hview1. }
  unfold footprint. rewrite Hat3, Hfoot3.
  intros a [->|Ha]%elem_of_cons; [done |].
  eapply lookup_weaken_None; [by apply Hfresh2 | done].
Qed.

(** X8. Copies made one after the other.  After a copy of [p], a copy of
    any template [q] of the resulting heap, [p] and the first copy
    included, succeeds; all four templates show their values at the end;
    and the second copy shares no address with [p], with the first copy or
    with [q].  So a copy of a copy shows the value of the original, and two
    copies of one template are independent of each other. *)
Theorem DeepCopy_successive h (l : loc) (T : TemplateValue) :
  view h l = Some T →
  ∃ (l1 : loc) (h1 : gmap loc object),
    ConstraintTemplate_DeepCopy (Some l) h = Some (Some l1, h1) ∧
    view h1 l1 = Some T ∧
    ∀ (q : loc) (Q : TemplateValue),
      view h1 q = Some Q →
      ∃ (q1 : loc) (h2 : gmap loc object),
        ConstraintTemplate_DeepCopy (Some q) h1 = Some (Some q1, h2) ∧
        view h2 l = Some T ∧ view h2 l1 = Some T ∧
        view h2 q = Some Q ∧ view h2 q1 = Some Q ∧
        ∀ a, a ∈ footprint h2 q1 →
             (a ∉ footprint h2 l) ∧ (a ∉ footprint h2 l1) ∧
             (a ∉ footprint h2 q).
Proof.
  intros Hview.
  destruct (DeepCopy_fresh h l T Hview) as (l1 & h1 & Hcopy1 & Hsub1 & Hview1 & _).
  exists l1, h1. split; [done |]. split; [done |].
  intros q Q HviewQ.
  destruct (DeepCopy_fresh h1 q Q HviewQ)
    as (q1 & h2 & Hcopy2 & Hsub2 & Hview2 & Hfresh2).
  assert (view h1 l = Some T) as Hl1.
  { destruct (view_mono h h1 l Hsub1) as [-> _]; by rewrite ?Hview. }
  destruct (view_mono h1 h2 l Hsub2) as [Hl2 Hfl]; [by rewrite Hl1 |].
  destruct (view_mono h1 h2 l1 Hsub2) as [Hl12 Hfl1]; [by rewrite Hview1 |].
  destruct (view_mono h1 h2 q Hsub2) as [Hq2 Hfq]; [by rewrite HviewQ |].
  exists q1, h2. split; [done |].
  split; [by rewrite Hl2 |]. split; [by rewrite Hl12 |].
  split; [by rewrite Hq2 |]. split; [done |].
  intros a Ha. apply Hfresh2 in Ha.
  rewrite Hfl, Hfl1, Hfq. repeat split; intros Hin.
  - apply (view_allocated h1 l) in Hin as [o Ho]; [congruence | by rewrite Hl1].
  - apply (view_allocated h1 l1) in Hin as [o Ho];
      [congruence | by rewrite Hview1].
  - apply (view_allocated h1 q) in Hin as [o Ho];
      [congruence | by rewrite HviewQ].
Qed.

(** [CRDSpec.DeepCopyInto] copies the [Validation] behind its pointer with
    the steps of [Validation.DeepCopy]. *)
Lemma CRDSpec_DeepCopyInto_Validation h (names : CRDNames) p :
  CRDSpec_DeepCopyInto {| Names := names; CRDSpec_Validation := p |} h =
  match Validation_DeepCopy p h with
  | Some (p', h') => Some ({| Names := names; CRDSpec_Validation := p' |}, h')
  | None => None
  end.
Proof.
  destruct p as [l|]; [| done].
  unfold CRDSpec_DeepCopyInto, Validation_DeepCopy, v1alpha1.bind. cbn.
  destruct (load as_Validation l _) as [[v h1]|]; [| done].
  destruct (Validation_DeepCopyInto v h1) as [[v' h2]|]; done.
Qed.

(** X9. [Validation.DeepCopy] of a well-formed pointer: nil gives nil; a
    [Validation] gives a new [Validation] that shows the same value, with a
    new schema below it when there is one and none when there is none; every
    object of the heap is kept as it is; and [CRDSpec.DeepCopyInto] leaves in
    its [Validation] field exactly what [Validation.DeepCopy] returns. *)
Theorem Validation_DeepCopy_deep h p :
  is_Some (view_Validation h p) →
  ∃ p' (h' : gmap loc object),
    Validation_DeepCopy p h = Some (p', h') ∧
    h ⊆ h' ∧
    view_Validation h' p' = view_Validation h p ∧
    (p' = None ↔ p = None) ∧
    (∀ a, a ∈ footprint_Validation h' p' → h !! a = None) ∧
    ∀ names,
      CRDSpec_DeepCopyInto {| Names := names; CRDSpec_Validation := p |} h
      = Some ({| Names := names; CRDSpec_Validation := p' |}, h').
Proof.
  intros Hsome.
  destruct (CRDSpec_DeepCopyInto_spec h
              {| Names := {| Kind := "" |}; CRDSpec_Validation := p |} Hsome)
    as ([names' p'] & h' & Hcopy & Hsub & _ & Hview & Hfresh).
  rewrite CRDSpec_DeepCopyInto_Validation in Hcopy.
  destruct (Validation_DeepCopy p h) as [[p'' h'']|] eqn:Hdeep; [| done].
  injection Hcopy as _ <- <-. cbn in Hview, Hfresh.
  exists p'', h''. repeat split; try done.
  - intros ->. destruct p as [l|]; [| done]. cbn in Hview.
    destruct (at_ as_Validation h l) as [v|]; [| by destruct Hsome].
    cbn in Hview.
    destruct (deref as_JSONSchemaProps h (OpenAPIV3Schema v)); [done |].
    by destruct Hsome.
  - intros ->. cbn in Hdeep. by injection Hdeep as <- _.
  - intros names. by rewrite CRDSpec_DeepCopyInto_Validation, Hdeep.
Qed.

(** ** Lists of templates *)

Lemma index_Some (s : Store) (sl : slice) (i : nat)
    (arr : list ConstraintTemplate) (t : ConstraintTemplate) :
  (i < len sl)%nat → arrays s !! array sl = Some arr →
  arr !! (offset sl + i)%nat = Some t →
  index sl i s = Some (t, s).
Proof.
  intros Hi Harr Ht. unfold index.
  replace (i <? len sl)%nat with true by (symmetry; by apply Nat.ltb_lt).
  rewrite Harr. cbn. by rewrite Ht.
Qed.

Lemma set_index_Some (s : Store) (sl : slice) (i : nat)
    (arr : list ConstraintTemplate) (t : ConstraintTemplate) :
  (i < len sl)%nat → arrays s !! array sl = Some arr →
  (offset sl + i < List.length arr)%nat →
  set_index sl i t s
  = Some (tt, {| objects := objects s;
                 arrays := <[array sl := <[(offset sl + i)%nat := t]> arr]>
                             (arrays s);
                 lists := lists s |}).
Proof.
  intros Hi Harr Hlt. unfold set_index.
  replace (i <? len sl)%nat with true by (symmetry; by apply Nat.ltb_lt).
  rewrite Harr. cbn -[Nat.ltb].
  by replace (offset sl + i <? List.length arr)%nat with true
    by (symmetry; by apply Nat.ltb_lt).
Qed.

Lemma on_objects_Some {A : Type} (c : M A) (s : Store) (a : A)
    (h' : gmap loc object) :
  c (objects s) = Some (a, h') →
  on_objects c s
  = Some (a, {| objects := h'; arrays := arrays s; lists := lists s |}).
Proof. unfold on_objects. by intros ->. Qed.

(** The loop of [ConstraintTemplateList.DeepCopyInto], from index [i] on:
    [A] holds the arrays before the call, [a_out] is the new array. *)
Lemma range_copy_items (A : gmap loc (list ConstraintTemplate))
    (L : gmap loc ConstraintTemplateList) (in_ : slice) (a_out : loc)
    (arr_in : list ConstraintTemplate) :
  A !! array in_ = Some arr_in →
  A !! a_out = None →
  let out := {| array := a_out; offset := 0; len := len in_ |} in
  ∀ (n i : nat) h (arr_out : list ConstraintTemplate),
    (i + n = len in_)%nat →
    List.length arr_out = len in_ →
    (∀ j, (i ≤ j < len in_)%nat →
          ∃ t, arr_in !! (offset in_ + j)%nat = Some t ∧
               is_Some (view_template h t)) →
    ∃ (h' : gmap loc object) (arr_out' : list ConstraintTemplate),
      range_from i n (copy_item in_ out)
        {| objects := h; arrays := <[a_out := arr_out]> A; lists := L |}
      = Some (tt, {| objects := h';
                     arrays := <[a_out := arr_out']> A;
                     lists := L |}) ∧
      h ⊆ h' ∧
      List.length arr_out' = len in_ ∧
      (∀ j, (j < i)%nat → arr_out' !! j = arr_out !! j) ∧
      (∀ j, (i ≤ j < len in_)%nat →
            ∃ t t', arr_in !! (offset in_ + j)%nat = Some t ∧
                    arr_out' !! j = Some t' ∧
                    view_template h' t' = view_template h t ∧
                    ∀ a, a ∈ footprint_template h' t' → h !! a = None) ∧
      (∀ j1 j2 t1 t2, (i ≤ j1 < j2)%nat →
            arr_out' !! j1 = Some t1 → arr_out' !! j2 = Some t2 →
            ∀ a, a ∈ footprint_template h' t1 →
                 a ∉ footprint_template h' t2).
Proof.
  intros Hin Hout out n.
  assert (array in_ ≠ a_out) as Hne by (intros Heq; congruence).
  induction n as [|n IH]; intros i h arr_out Hi Hlen Hwf.
  { exists h, arr_out. cbn. split; [done |]. split; [done |].
    split; [done |]. split; [done |]. split; [intros j Hj; lia |].
    intros j1 j2 t1 t2 Hj H1 H2.
    apply lookup_lt_Some in H2. lia. }
  destruct (Hwf i) as (t & Ht & Hsome); [lia |].
  destruct (ConstraintTemplate_DeepCopyInto_spec h t Hsome)
    as (t' & h1 & Hcopy & Hsub1 & Hview1 & Hfresh1).
  assert (is_Some (view_template h1 t')) as Hsome1 by by rewrite Hview1.
  destruct (IH (S i) h1 (<[i := t']> arr_out)) as
    (h' & arr_out' & Hloop & Hsub' & Hlen' & Hbefore & Hitems & Hpair).
  { lia. }
  { by rewrite length_insert. }
  { intros j Hj. destruct (Hwf j) as (tj & Htj & Hsomej); [lia |].
    exists tj. split; [done |].
    destruct (view_template_mono h h1 tj Hsub1 Hsomej) as [-> _]. done. }
  destruct (view_template_mono h1 h' t' Hsub' Hsome1) as [Hview' Hfoot'].
  assert (arr_out' !! i = Some t') as Hi'.
  { rewrite Hbefore by lia. apply list_lookup_insert_eq. lia. }
  exists h', arr_out'. split.
  { cbn [range_from]. unfold bindS at 1. unfold copy_item at 1.
    unfold bindS at 1.
    rewrite (index_Some _ in_ i arr_in t);
      [| lia | cbn; by rewrite lookup_insert_ne | done].
    unfold bindS at 1.
    rewrite (on_objects_Some _ _ t' h1) by exact Hcopy.
    rewrite (set_index_Some _ out i arr_out t');
      [| cbn; lia | cbn; by rewrite lookup_insert_eq | cbn; lia].
    cbn [objects arrays lists array offset out Nat.add].
    rewrite insert_insert_eq. exact Hloop. }
  split; [by etrans |]. split; [done |]. split.
  { intros j Hj. rewrite Hbefore by lia. apply list_lookup_insert_ne. lia. }
  split.
  - intros j Hj. destruct (decide (j = i)) as [->|Hji].
    + exists t, t'. split; [done |]. split; [done |].
      split; [by rewrite Hview' |].
      rewrite Hfoot'. exact Hfresh1.
    + destruct (Hitems j) as (tj & tj' & Htj & Htj' & Hviewj & Hfreshj); [lia |].
      destruct (Hwf j) as (tj0 & Htj0 & Hsomej); [lia |].
      assert (tj0 = tj) as -> by congruence.
      exists tj, tj'. split; [done |]. split; [done |]. split.
      * rewrite Hviewj.
        by destruct (view_template_mono h h1 tj Hsub1 Hsomej) as [-> _].
      * intros a Ha. eapply lookup_weaken_None; [by apply Hfreshj | done].
  - intros j1 j2 t1 t2 Hj H1 H2 a Ha1 Ha2.
    destruct (decide (j1 = i)) as [->|Hj1].
    + assert (t1 = t') as -> by congruence.
      rewrite Hfoot' in Ha1.
      apply (view_template_allocated h1 t' Hsome1) in Ha1 as [o Ho].
      pose proof (lookup_lt_Some _ _ _ H2) as Hlt.
      destruct (Hitems j2) as (tj & tj' & _ & Htj' & _ & Hfreshj); [lia |].
      assert (tj' = t2) as -> by congruence.
      apply Hfreshj in Ha2. congruence.
    + apply (Hpair j1 j2 t1 t2 ltac:(lia) H1 H2 a Ha1 Ha2).
Qed.

Lemma items_of_Some (s : Store) (sl : slice) (ts : list ConstraintTemplate) :
  items_of s sl = Some ts →
  ∃ arr, arrays s !! array sl = Some arr ∧
         (offset sl + len sl ≤ List.length arr)%nat ∧
         List.length ts = len sl ∧
         ∀ j, (j < len sl)%nat → ts !! j = arr !! (offset sl + j)%nat.
Proof.
  unfold items_of. destruct (arrays s !! array sl) as [arr|]; [| done]. cbn.
  destruct (Nat.leb_spec (offset sl + len sl) (List.length arr)) as [Hle|];
    [| done].
  intros [= <-]. exists arr. split; [done |]. split; [done |]. split.
  - rewrite length_take_le; [done |]. rewrite length_drop. lia.
  - intros j Hj. by rewrite lookup_take_lt, lookup_drop.
Qed.

(** [ConstraintTemplateList.DeepCopyInto] on a well-formed list. *)
Lemma List_DeepCopyInto_spec (s : Store)
    (L : ConstraintTemplateList) (V : ListValue) :
  view_List s L = Some V →
  ∃ (L' : ConstraintTemplateList) (s' : Store),
    ConstraintTemplateList_DeepCopyInto L s = Some (L', s') ∧
    objects s ⊆ objects s' ∧ arrays s ⊆ arrays s' ∧ lists s' = lists s ∧
    view_List s' L' = Some V ∧
    (Items L' = None ↔ Items L = None) ∧
    ∀ sl', Items L' = Some sl' →
      arrays s !! array sl' = None ∧
      ∃ ts',
        items_of s' sl' = Some ts' ∧
        (∀ sl, Items L = Some sl → List.length ts' = len sl) ∧
        (∀ t' a, t' ∈ ts' → a ∈ footprint_template (objects s') t' →
                 objects s !! a = None) ∧
        (∀ j1 j2 t1 t2, j1 ≠ j2 →
           ts' !! j1 = Some t1 → ts' !! j2 = Some t2 →
           ∀ a, a ∈ footprint_template (objects s') t1 →
                a ∉ footprint_template (objects s') t2).
Proof.
  intros Hview. unfold view_List in Hview.
  destruct (view_Items s (Items L)) as [items|] eqn:Hitems; [| done].
  cbn in Hview. injection Hview as <-.
  unfold ConstraintTemplateList_DeepCopyInto.
  destruct L as [tm lm [sl|]]; cbn [Items List_TypeMeta List_ListMeta] in *.
  2: { exists {| List_TypeMeta := tm; List_ListMeta := lm; Items := None |}, s.
       unfold retS, view_List. cbn. injection Hitems as <-.
       repeat split; done. }
  cbn in Hitems.
  destruct (items_of s sl) as [ts|] eqn:Hts; [| done]. cbn in Hitems.
  destruct (mapM (view_template (objects s)) ts) as [vs|] eqn:Hvs; [| done].
  cbn in Hitems. injection Hitems as <-.
  apply mapM_Some in Hvs.
  destruct (items_of_Some s sl ts Hts) as (arr_in & Harr & Hle & Hlen & Hlookup).
  set (a_out := fresh (dom (arrays s))).
  assert (arrays s !! a_out = None) as Hfree
    by apply not_elem_of_dom, is_fresh.
  destruct (range_copy_items (arrays s) (lists s) sl a_out arr_in Harr Hfree
              (len sl) 0 (objects s) (replicate (len sl) ConstraintTemplate_zero))
    as (h' & arr_out' & Hloop & Hsub & Hlen' & _ & Hcopies & Hpair).
  { lia. }
  { apply length_replicate. }
  { intros j [_ Hj]. rewrite <- (Hlookup j Hj).
    destruct (lookup_lt_is_Some_2 ts j) as [t Ht]; [lia |].
    exists t. split; [done |].
    destruct (Forall2_lookup_l _ _ _ _ _ Hvs Ht) as (v & _ & Hv).
    by rewrite Hv. }
  set (out := {| array := a_out; offset := 0; len := len sl |}) in *.
  set (s' := {| objects := h';
                arrays := <[a_out := arr_out']> (arrays s);
                lists := lists s |}).
  assert (items_of s' out = Some arr_out') as Hout.
  { unfold items_of. cbn. rewrite lookup_insert_eq. cbn.
    replace (len sl <=? List.length arr_out')%nat with true
      by (symmetry; apply Nat.leb_le; lia).
    rewrite drop_0. by rewrite take_ge by lia. }
  exists {| List_TypeMeta := tm; List_ListMeta := lm; Items := Some out |}, s'.
  split.
  { unfold bindS, make_Items, retS. fold a_out. fold out.
    destruct s as [h A Ls]. cbn [objects arrays lists] in *. by rewrite Hloop. }
  split; [done |]. split; [by apply insert_subseteq |]. split; [done |].
  split.
  { unfold view_List, view_Items. cbn [Items List_TypeMeta List_ListMeta].
    rewrite Hout. cbn.
    assert (mapM (view_template h') arr_out' = Some vs) as ->; [| done].
    apply mapM_Some, Forall2_same_length_lookup_2.
    { rewrite Hlen', <- Hlen. by eapply Forall2_length. }
    intros j t' v Ht' Hv.
    assert (j < len sl)%nat as Hj by (rewrite <- Hlen'; by eapply lookup_lt_Some).
    destruct (Hcopies j) as (t & t'' & Ht & Ht'' & Hview' & _); [lia |].
    assert (t'' = t') as -> by congruence.
    rewrite Hview'. rewrite <- (Hlookup j Hj) in Ht.
    by destruct (Forall2_lookup_lr _ _ _ _ _ _ Hvs Ht Hv). }
  split; [done |].
  intros sl' [= <-]. split; [done |].
  exists arr_out'. split; [done |]. split; [by intros sl0 [= <-] |]. split.
  - intros t' a [j Hj]%list_elem_of_lookup Ha.
    assert (j < len sl)%nat as Hlt by (rewrite <- Hlen'; by eapply lookup_lt_Some).
    destruct (Hcopies j) as (t & t'' & _ & Ht'' & _ & Hnew); [lia |].
    assert (t'' = t') as -> by congruence. by apply Hnew.
  - intros j1 j2 t1 t2 Hne H1 H2 a Ha1 Ha2.
    destruct (decide (j1 < j2)%nat) as [Hlt|Hge].
    + by apply (Hpair j1 j2 t1 t2 ltac:(lia) H1 H2 a).
    + by apply (Hpair j2 j1 t2 t1 ltac:(lia) H2 H1 a).
Qed.

(** X10. [ConstraintTemplateList.DeepCopyInto] on a well-formed list: nil
    items stay nil; otherwise the copy has a new backing array of the same
    length, empty when the items are empty, each of its templates shows the
    value of the template at the same index, every address of these
    templates was free before the call, and no two of them share an address,
    even where templates of the original do.  No object and no array that
    existed is changed. *)
Theorem ConstraintTemplateList_DeepCopyInto_deep (s : Store)
    (L : ConstraintTemplateList) (V : ListValue) :
  view_List s L = Some V →
  ∃ (L' : ConstraintTemplateList) (s' : Store),
    ConstraintTemplateList_DeepCopyInto L s = Some (L', s') ∧
    objects s ⊆ objects s' ∧ arrays s ⊆ arrays s' ∧ lists s' = lists s ∧
    view_List s' L' = Some V ∧
    (Items L' = None ↔ Items L = None) ∧
    ∀ sl', Items L' = Some sl' →
      arrays s !! array sl' = None ∧
      ∃ ts',
        items_of s' sl' = Some ts' ∧
        (∀ sl, Items L = Some sl → List.length ts' = len sl) ∧
        (∀ t' a, t' ∈ ts' → a ∈ footprint_template (objects s') t' →
                 objects s !! a = None) ∧
        (∀ j1 j2 t1 t2, j1 ≠ j2 →
           ts' !! j1 = Some t1 → ts' !! j2 = Some t2 →
           ∀ a, a ∈ footprint_template (objects s') t1 →
                a ∉ footprint_template (objects s') t2).
Proof. apply List_DeepCopyInto_spec. Qed.

Lemma view_List_same (s s' : Store) (L : ConstraintTemplateList) :
  objects s' = objects s → arrays s' = arrays s →
  view_List s' L = view_List s L.
Proof.
  unfold view_List, view_Items, items_of. by intros -> ->.
Qed.

(** X13. [ConstraintTemplateList.DeepCopy] of a pointer to a well-formed
    list: the result is a new pointer to a list that shows the same value;
    the list behind the receiver, every other list, every array and every
    object are as they were; and the items of the new list are nil when the
    items of the receiver are, and otherwise lie in an array that did not
    exist. *)
Theorem ConstraintTemplateList_DeepCopy_deep (s : Store) (p : loc)
    (L : ConstraintTemplateList) (V : ListValue) :
  lists s !! p = Some L →
  view_List s L = Some V →
  ∃ (p' : loc) (L' : ConstraintTemplateList) (s' : Store),
    ConstraintTemplateList_DeepCopy (Some p) s = Some (Some p', s') ∧
    lists s !! p' = None ∧
    lists s' = <[p' := L']> (lists s) ∧
    objects s ⊆ objects s' ∧ arrays s ⊆ arrays s' ∧
    view_List s' L' = Some V ∧
    view_List s' L = Some V ∧
    (Items L' = None ↔ Items L = None) ∧
    ∀ sl', Items L' = Some sl' → arrays s !! array sl' = None.
Proof.
  intros Hp Hview.
  set (out := fresh (dom (lists s))).
  assert (lists s !! out = None) as Hout by apply not_elem_of_dom, is_fresh.
  set (s1 := {| objects := objects s;
                arrays := arrays s;
                lists := <[out := ConstraintTemplateList_zero]> (lists s) |}).
  destruct (List_DeepCopyInto_spec s1 L V)
    as (L' & s2 & Hcopy & Hobjects & Harrays & Hlists & Hview' & Hnil & Hitems).
  { by rewrite (view_List_same s s1). }
  exists out, L', {| objects := objects s2;
                     arrays := arrays s2;
                     lists := <[out := L']> (lists s2) |}.
  split.
  { unfold ConstraintTemplateList_DeepCopy, bindS at 1, new_List.
    fold out. fold s1. unfold bindS at 1, load_List.
    assert (lists s1 !! p = Some L) as ->.
    { cbn. rewrite lookup_insert_ne; [done |]. intros <-. congruence. }
    cbn [mbind option_bind]. unfold bindS at 1. rewrite Hcopy.
    unfold bindS, store_List, retS. done. }
  split; [done |]. split.
  { cbn. rewrite Hlists. cbn. by rewrite insert_insert_eq. }
  split; [done |]. split; [done |]. split.
  { by rewrite (view_List_same s2 _ L'). }
  split.
  { unfold view_List, view_Items in *.
    destruct (Items L) as [sl|]; [| done]. cbn in *.
    destruct (items_of s sl) as [ts|] eqn:Hts; [| done]. cbn in Hview.
    destruct (items_of_Some s sl ts Hts) as (arr & Harr & Hle & Hlen & Hlookup).
    assert (items_of {| objects := objects s2; arrays := arrays s2;
                        lists := <[out := L']> (lists s2) |} sl = Some ts) as ->.
    { unfold items_of in *. cbn.
      rewrite (lookup_weaken (arrays s) (arrays s2) _ _ Harr Harrays).
      by rewrite Harr in Hts. }
    cbn.
    destruct (mapM (view_template (objects s)) ts) as [vs|] eqn:Hvs; [| done].
    cbn in Hview. injection Hview as <-.
    assert (mapM (view_template (objects s2)) ts = Some vs) as ->; [| done].
    apply mapM_Some. apply mapM_Some in Hvs.
    eapply Forall2_impl; [exact Hvs |].
    intros t v Hv. cbn in Hv.
    destruct (view_template_mono (objects s) (objects s2) t Hobjects) as [-> _];
      by rewrite ?Hv. }
  split; [done |].
  intros sl' Hsl'. by destruct (Hitems sl' Hsl') as [Hfree _].
Qed.

(** ** Copies behind an interface *)

Lemma DeepCopy_pointer h (in_ c : option loc) (h' : gmap loc object) :
  ConstraintTemplate_DeepCopy in_ h = Some (c, h') →
  (c = None ↔ in_ = None) ∧ (in_ = None → h' = h).
Proof.
  destruct in_ as [l|]; cbn.
  - unfold v1alpha1.bind, new, store, v1alpha1.ret.
    destruct (load as_ConstraintTemplate l _) as [[t h1]|]; [| done].
    destruct (ConstraintTemplate_DeepCopyInto t h1) as [[t' h2]|]; [| done].
    intros [= <- <-]. split; [split; done | done].
  - intros [= <- <-]. split; [split; done | done].
Qed.

Lemma List_DeepCopy_pointer (s s' : Store) (in_ c : option loc) :
  ConstraintTemplateList_DeepCopy in_ s = Some (c, s') →
  (c = None ↔ in_ = None) ∧ (in_ = None → s' = s).
Proof.
  destruct in_ as [l|]; cbn.
  - unfold bindS, new_List, load_List, store_List, retS. cbn.
    destruct (_ !! l) as [L|]; [| done]. cbn.
    destruct (ConstraintTemplateList_DeepCopyInto L _) as [[L' s1]|]; [| done].
    intros [= <- <-]. split; [split; done | done].
  - intros [= <- <-]. split; [split; done | done].
Qed.

(** X11. A copy handed out as a [runtime.Object] is the nil interface
    exactly when the receiver is nil, and then nothing is allocated;
    otherwise it is an interface around the pointer that [DeepCopy] returns,
    which is not nil.  Neither function ever returns an interface around a
    nil pointer, which Go would not take for nil. *)
Theorem DeepCopyObject_nil (s s' : Store) (in_ : option loc)
    (o : runtime_Object) :
  (ConstraintTemplate_DeepCopyObject in_ s = Some (o, s') →
     (o = Object_nil ↔ in_ = None) ∧
     (in_ = None → s' = s) ∧
     o ≠ Object_ConstraintTemplate None ∧
     (in_ ≠ None →
        ∃ l', o = Object_ConstraintTemplate (Some l') ∧
              ConstraintTemplate_DeepCopy in_ (objects s)
              = Some (Some l', objects s') ∧
              arrays s' = arrays s ∧ lists s' = lists s)) ∧
  (ConstraintTemplateList_DeepCopyObject in_ s = Some (o, s') →
     (o = Object_nil ↔ in_ = None) ∧
     (in_ = None → s' = s) ∧
     o ≠ Object_ConstraintTemplateList None ∧
     (in_ ≠ None →
        ∃ l', o = Object_ConstraintTemplateList (Some l') ∧
              ConstraintTemplateList_DeepCopy in_ s = Some (Some l', s'))).
Proof.
  split.
  - unfold ConstraintTemplate_DeepCopyObject, bindS, on_objects.
    destruct (ConstraintTemplate_DeepCopy in_ (objects s)) as [[c h']|] eqn:Hc;
      [| done].
    destruct (DeepCopy_pointer _ _ _ _ Hc) as [Hnil Hsame].
    destruct c as [l'|]; unfold retS; intros [= <- <-].
    + split; [split; [done |] |].
      { intros Hin. by apply Hnil in Hin. }
      split.
      { intros Hin. by apply Hnil in Hin. }
      split; [done |]. intros _. by exists l'.
    + assert (in_ = None) as -> by by apply Hnil.
      rewrite (Hsame eq_refl). destruct s. by repeat split.
  - unfold ConstraintTemplateList_DeepCopyObject, bindS.
    destruct (ConstraintTemplateList_DeepCopy in_ s) as [[c s1]|] eqn:Hc;
      [| done].
    destruct (List_DeepCopy_pointer _ _ _ _ Hc) as [Hnil Hsame].
    destruct c as [l'|]; unfold retS; intros [= <- <-].
    + split; [split; [done |] |].
      { intros Hin. by apply Hnil in Hin. }
      split.
      { intros Hin. by apply Hnil in Hin. }
      split; [done |]. intros _. by exists l'.
    + assert (in_ = None) as -> by by apply Hnil.
      rewrite (Hsame eq_refl). by repeat split.
Qed.

(** ** What a copy allocates *)

Lemma only_adds_refl h : only_adds h h [].
Proof. intros a Ha. by left. Qed.

Lemma only_adds_insert h l (o : object) : only_adds h (<[l := o]> h) [l].
Proof.
  intros a Ha. destruct (decide (a = l)) as [->|Hne].
  - right. apply list_elem_of_singleton. done.
  - left. by rewrite lookup_insert_ne in Ha.
Qed.

Lemma only_adds_trans h h1 h2 (F1 F2 : list loc) :
  only_adds h h1 F1 → only_adds h1 h2 F2 → only_adds h h2 (F1 ++ F2)%list.
Proof.
  intros H1 H2 a Ha. rewrite elem_of_app.
  destruct (H2 a Ha) as [Ha1 | Ha2]; [| by auto].
  destruct (H1 a Ha1) as [Ha0 | Ha1']; by auto.
Qed.

Lemma only_adds_weaken h h' (F F' : list loc) :
  only_adds h h' F → (∀ a, a ∈ F → a ∈ F') → only_adds h h' F'.
Proof. intros HF Hsub a Ha. destruct (HF a Ha); by auto. Qed.

Lemma bind_Some {A B : Type} (c : M A) (k : A → M B) h (b : B)
    (h'' : gmap loc object) :
  v1alpha1.bind c k h = Some (b, h'') →
  ∃ a h', c h = Some (a, h') ∧ k a h' = Some (b, h'').
Proof.
  unfold v1alpha1.bind. destruct (c h) as [[a h']|]; [| done].
  intros Hk. by exists a, h'.
Qed.

Lemma load_Some {A : Type} (as_ : object → option A) l h (a : A)
    (h' : gmap loc object) :
  load as_ l h = Some (a, h') → h' = h ∧ at_ as_ h l = Some a.
Proof.
  unfold load. destruct (at_ as_ h l) as [a'|]; [| done]. by intros [= <- <-].
Qed.

Lemma JSONSchemaProps_DeepCopy_adds h p p' (h' : gmap loc object) :
  JSONSchemaProps_DeepCopy p h = Some (p', h') → only_adds h h' (cells p').
Proof.
  destruct p as [l|]; cbn.
  - intros (s & h1 & [-> _]%load_Some & Hnew)%bind_Some.
    unfold v1alpha1.bind, new, v1alpha1.ret in Hnew.
    injection Hnew as <- <-. apply only_adds_insert.
  - intros [= <- <-]. apply only_adds_refl.
Qed.

Lemma Validation_DeepCopyInto_adds h (v v' : Validation)
    (h' : gmap loc object) :
  Validation_DeepCopyInto v h = Some (v', h') →
  only_adds h h' (cells (OpenAPIV3Schema v')).
Proof.
  unfold Validation_DeepCopyInto. destruct (OpenAPIV3Schema v) as [l|] eqn:Hl.
  - intros (p' & h1 & Hcopy & [= <- <-])%bind_Some.
    by apply JSONSchemaProps_DeepCopy_adds in Hcopy.
  - intros [= <- <-]. rewrite Hl. apply only_adds_refl.
Qed.

Lemma CRDSpec_DeepCopyInto_adds h (spec spec' : CRDSpec)
    (h' : gmap loc object) :
  CRDSpec_DeepCopyInto spec h = Some (spec', h') →
  only_adds h h' (footprint_Validation h' (CRDSpec_Validation spec')).
Proof.
  unfold CRDSpec_DeepCopyInto.
  destruct (CRDSpec_Validation spec) as [l|] eqn:Hl.
  2: { intros [= <- <-]. rewrite Hl. apply only_adds_refl. }
  intros (out & h1 & Hnew & Hrest)%bind_Some.
  unfold new in Hnew. injection Hnew as <- <-.
  apply bind_Some in Hrest as (v & h1' & [-> _]%load_Some & Hrest).
  apply bind_Some in Hrest as (v' & h2 & Hcopy & Hrest).
  unfold v1alpha1.bind, store, v1alpha1.ret in Hrest.
  injection Hrest as <- <-. cbn. rewrite at_new. cbn.
  apply Validation_DeepCopyInto_adds in Hcopy.
  eapply only_adds_weaken.
  { eapply only_adds_trans; [apply only_adds_insert |].
    eapply only_adds_trans; [exact Hcopy | apply only_adds_insert]. }
  intros a. rewrite !elem_of_app, !elem_of_cons, !elem_of_nil. tauto.
Qed.

Lemma ObjectMeta_DeepCopyInto_adds h (meta meta' : ObjectMeta)
    (h' : gmap loc object) :
  ObjectMeta_DeepCopyInto meta h = Some (meta', h') →
  only_adds h h' (cells (Labels meta')).
Proof.
  unfold ObjectMeta_DeepCopyInto. destruct (Labels meta) as [l|] eqn:Hl.
  2: { intros [= <- <-]. rewrite Hl. apply only_adds_refl. }
  intros (m & h1 & [-> _]%load_Some & Hrest)%bind_Some.
  apply bind_Some in Hrest as (out & h1 & Hnew & Hrest).
  unfold new in Hnew. injection Hnew as <- <-.
  apply bind_Some in Hrest as ([] & h2 & Hrange & Hrest).
  rewrite (range_set_Label _ m _ ∅) in Hrange by apply lookup_insert_eq.
  injection Hrange as <-. unfold v1alpha1.ret in Hrest.
  injection Hrest as <- <-. cbn.
  eapply only_adds_weaken.
  { eapply only_adds_trans; apply only_adds_insert. }
  intros a. rewrite !elem_of_app, !elem_of_cons, !elem_of_nil. tauto.
Qed.

Lemma ConstraintTemplateSpec_DeepCopyInto_adds h
    (spec spec' : ConstraintTemplateSpec) (h' : gmap loc object) :
  is_Some (view_Validation h (CRDSpec_Validation (CRD_Spec (Spec_CRD spec)))) →
  ConstraintTemplateSpec_DeepCopyInto spec h = Some (spec', h') →
  only_adds h h'
    (footprint_Validation h' (CRDSpec_Validation (CRD_Spec (Spec_CRD spec')))
     ++ cells (Targets spec'))%list.
Proof.
  intros Hwf. unfold ConstraintTemplateSpec_DeepCopyInto, CRD_DeepCopyInto.
  intros (crd & h1 & Hcrd & Hrest)%bind_Some.
  apply bind_Some in Hcrd as (crdspec' & h1' & Hcrdspec & [= <- <-]).
  destruct (CRDSpec_DeepCopyInto_spec h (CRD_Spec (Spec_CRD spec)) Hwf)
    as (crdspec0 & h0 & Heq & Hsub & _ & Hview & _).
  rewrite Hcrdspec in Heq. injection Heq as <- <-.
  apply CRDSpec_DeepCopyInto_adds in Hcrdspec.
  destruct (Targets spec) as [l|] eqn:Hl.
  2: { injection Hrest as <- <-. cbn. by rewrite (right_id_L [] app). }
  apply bind_Some in Hrest as (m & h2 & [-> _]%load_Some & Hrest).
  apply bind_Some in Hrest as (out & h2 & Hnew & Hrest).
  unfold new in Hnew. injection Hnew as <- <-.
  apply bind_Some in Hrest as ([] & h3 & Hrange & Hrest).
  rewrite (range_set_Target _ m _ ∅) in Hrange by apply lookup_insert_eq.
  injection Hrange as <-. unfold v1alpha1.ret in Hrest.
  injection Hrest as <- <-. cbn [Targets Spec_CRD CRD_Spec cells].
  rewrite insert_insert_eq.
  destruct (view_Validation_mono h1' (<[fresh (dom h1') := obj_Targets (m ∪ ∅)]> h1')
              (CRDSpec_Validation crdspec')) as [_ ->];
    [apply new_subseteq | by rewrite Hview |].
  eapply only_adds_trans; [exact Hcrdspec | apply only_adds_insert].
Qed.

Lemma ConstraintTemplate_DeepCopyInto_adds h (t t' : ConstraintTemplate)
    (h' : gmap loc object) :
  is_Some (view_template h t) →
  ConstraintTemplate_DeepCopyInto t h = Some (t', h') →
  only_adds h h' (footprint_template h' t').
Proof.
  intros Hwf. pose proof Hwf as Hwf'. unfold view_template in Hwf'.
  destruct (deref as_Labels h _) as [labels|] eqn:Hlabels;
    [| by destruct Hwf'].
  destruct (view_Validation h _) as [validation|] eqn:Hvalidation;
    [| by destruct Hwf'].
  clear Hwf'.
  unfold ConstraintTemplate_DeepCopyInto.
  intros (meta' & h1 & Hmeta & Hrest)%bind_Some.
  apply bind_Some in Hrest as (spec' & h2 & Hspec & [= <- <-]).
  destruct (ObjectMeta_DeepCopyInto_spec h (Template_ObjectMeta t))
    as (meta0 & h0 & Heq & Hsub & _); [by rewrite Hlabels |].
  rewrite Hmeta in Heq. injection Heq as <- <-.
  apply ObjectMeta_DeepCopyInto_adds in Hmeta.
  apply ConstraintTemplateSpec_DeepCopyInto_adds in Hspec.
  2: { destruct (view_Validation_mono h h1
                   (CRDSpec_Validation (CRD_Spec (Spec_CRD (Spec t)))) Hsub)
         as [-> _]; by rewrite Hvalidation. }
  unfold footprint_template. cbn [Template_ObjectMeta Spec].
  by eapply only_adds_trans.
Qed.

(** X12. [DeepCopy] allocates the objects of the copy and nothing else: after
    the copy of a well-formed template, an address holds an object exactly
    when it held one before the call or is one of the addresses that the copy
    is made of, and every object that was there is unchanged. *)
Theorem DeepCopy_allocates h (l : loc) (T : TemplateValue) :
  view h l = Some T →
  ∃ (l' : loc) (h' : gmap loc object),
    ConstraintTemplate_DeepCopy (Some l) h = Some (Some l', h') ∧
    h ⊆ h' ∧
    ∀ a, is_Some (h' !! a) ↔ is_Some (h !! a) ∨ a ∈ footprint h' l'.
Proof.
  intros Hview.
  destruct (DeepCopy_fresh h l T Hview) as (l' & h' & Hcopy & Hsub & Hview' & Hnew).
  exists l', h'. split; [done |]. split; [done |].
  intros a. split.
  2: { intros [[o Ho] | Ha].
       - exists o. by eapply lookup_weaken.
       - apply (view_allocated h' l'); [by rewrite Hview' | done]. }
  revert a. fold (only_adds h h' (footprint h' l')).
  pose proof Hview as Hview0. unfold view in Hview0.
  destruct (at_ as_ConstraintTemplate h l) as [t|] eqn:Ht; [| done].
  cbn in Hview0.
  pose proof Hcopy as Hrun. unfold ConstraintTemplate_DeepCopy in Hrun.
  apply bind_Some in Hrun as (out & h1 & Hout & Hrun).
  unfold new in Hout. injection Hout as <- <-.
  apply bind_Some in Hrun as (t0 & h1 & [-> Ht1]%load_Some & Hrun).
  apply bind_Some in Hrun as (t' & h2 & Hinto & Hrun).
  unfold v1alpha1.bind, store, v1alpha1.ret in Hrun. injection Hrun as <- <-.
  set (out := fresh (dom h)) in *.
  set (h1 := <[out := obj_ConstraintTemplate ConstraintTemplate_zero]> h) in *.
  assert (h ⊆ h1) as Hsub1 by apply new_subseteq.
  assert (t0 = t) as ->.
  { unfold at_ in Ht, Ht1. destruct (h !! l) as [o|] eqn:Hl; [| done].
    rewrite (lookup_weaken h h1 l o Hl Hsub1) in Ht1. congruence. }
  destruct (view_template_mono h h1 t Hsub1) as [Hview1 _];
    [by rewrite Hview0 |].
  assert (is_Some (view_template h1 t)) as Hwf1 by by rewrite Hview1, Hview0.
  destruct (ConstraintTemplate_DeepCopyInto_spec h1 t Hwf1)
    as (t'0 & h0 & Heq & _ & _ & Hfresh2).
  rewrite Hinto in Heq. injection Heq as <- <-.
  apply (ConstraintTemplate_DeepCopyInto_adds h1 t t' h2 Hwf1) in Hinto.
  assert (∀ a, a ∈ footprint_template h2 t' →
               <[out := obj_ConstraintTemplate t']> h2 !! a = h2 !! a) as Hagree.
  { intros a Ha. apply lookup_insert_ne. intros <-. apply Hfresh2 in Ha.
    unfold h1 in Ha. by rewrite lookup_insert_eq in Ha. }
  destruct (view_template_agree h2 _ t' Hagree) as [_ Hfoot].
  unfold footprint. rewrite at_new. cbn. rewrite Hfoot.
  eapply only_adds_weaken.
  { eapply only_adds_trans; [apply only_adds_insert |].
    eapply only_adds_trans; [exact Hinto | apply only_adds_insert]. }
  intros a. rewrite !elem_of_app, !elem_of_cons, !elem_of_nil. tauto.
Qed.

End more_deep_copy.

(** * Further properties of the helper *)
Section more_client_properties.
Import client.
Context `{PackageNames} `{Platform}.

(** ** Strings *)

Lemma length_append (a s : string) :
  String.length (a ++ s) = (String.length a + String.length s)%nat.
Proof.
  induction a as [|c a IH]; [done |].
  change (S (String.length (a ++ s))
          = S (String.length a + String.length s)).
  by rewrite IH.
Qed.

Lemma append_cancel_r (a b s : string) : a ++ s = b ++ s → a = b.
Proof.
  revert b. induction a as [|c a IH]; intros [|c' b] Heq.
  - done.
  - assert (String.length s = S (String.length b + String.length s)) as Hlen
      by (rewrite <- length_append; exact (f_equal String.length Heq)).
    lia.
  - assert (S (String.length a + String.length s) = String.length s) as Hlen
      by (rewrite <- length_append; exact (f_equal String.length Heq)).
    lia.
  - change (String c (a ++ s) = String c' (b ++ s)) in Heq.
    injection Heq as -> Heq. by rewrite (IH b Heq).
Qed.

(** ** The three messages of [validateTargets] *)

(** X1. Each of the three errors of [validateTargets] stands for one way of
    getting the targets wrong: the multi-target error is returned exactly
    for two or more entries, the missing-field error exactly for a nil map,
    and the no-target error exactly for a map that is empty and not nil. *)
Theorem validateTargets_messages (templ : templates.ConstraintTemplate) :
  let targets := templates.Targets (templates.Spec templ) in
  (validateTargets templ =
     Some (errors_New "Multi-target templates are not currently supported") ↔
   ∃ m, targets = Some m ∧ (2 ≤ size m)%nat) ∧
  (validateTargets templ =
     Some (errors_New ("Field " ++ dquote ++ "targets" ++ dquote ++
                       " not specified in ConstraintTemplate spec")) ↔
   targets = None) ∧
  (validateTargets templ =
     Some (errors_New
             "No targets specified. ConstraintTemplate must specify one target") ↔
   targets = Some ∅).
Proof.
  cbv zeta. unfold validateTargets.
  destruct (templates.Targets (templates.Spec templ)) as [m|] eqn:Htargets.
  - cbn [len_map].
    destruct (Nat.ltb_spec 1 (size m)) as [Hmany|Hfew].
    { repeat split; try done.
      - intros _. exists m. split; [done | lia].
      - intros [= ->]. rewrite map_size_empty in Hmany. lia. }
    rewrite bool_decide_eq_false_2 by done.
    destruct (Nat.eqb_spec (size m) 0) as [Hzero|Hpos].
    { apply map_size_empty_iff in Hzero as ->.
      repeat split; try done.
      intros (m' & [= <-] & Hge). rewrite map_size_empty in Hge. lia. }
    repeat split; try done.
    + intros (m' & [= <-] & Hge). lia.
    + intros [= ->]. by rewrite map_size_empty in Hpos.
  - cbn. repeat split; try done.
    intros (m & [=] & _).
Qed.

(** ** What [createSchema] reads *)

(** X2. [createSchema] reads nothing of a template but the parameter schema
    it declares: two templates that declare the same parameter schema, or
    none, get the same result, whatever their kinds and their targets are,
    and in particular whether or not [validateTargets] accepts them. *)
Theorem createSchema_reads_parameters (h : crdHelper)
    (templ1 templ2 : templates.ConstraintTemplate)
    (target : MatchSchemaProvider) :
  declared_parameters templ1 = declared_parameters templ2 →
  createSchema h templ1 target = createSchema h templ2 target.
Proof.
  unfold declared_parameters, createSchema.
  destruct (templates.CRDSpec_Validation
              (templates.CRD_Spec (templates.Spec_CRD (templates.Spec templ1))))
    as [[[s1|]]|];
  destruct (templates.CRDSpec_Validation
              (templates.CRD_Spec (templates.Spec_CRD (templates.Spec templ2))))
    as [[[s2|]]|];
  cbn; intros Heq; by simplify_eq.
Qed.

(** ** Failures of [createCRD] *)

(** X3. [createCRD] fails exactly when one of the two conversions of the
    round trip fails, and it returns the error of that conversion; the
    second conversion is given the defaulted result of the first. *)
Theorem createCRD_errors (h : crdHelper) (templ : templates.ConstraintTemplate)
    (schema : option apiextensions.JSONSchemaProps) (err : error) :
  createCRD h templ schema = inl err ↔
  Convert_to_v1beta1 (scheme h) (createCRD_crd templ schema) = inl err ∨
  ∃ v1b1,
    Convert_to_v1beta1 (scheme h) (createCRD_crd templ schema) = inr v1b1 ∧
    Convert_from_v1beta1 (scheme h) (Default (scheme h) v1b1) = inl err.
Proof.
  unfold createCRD, try.
  destruct (Convert_to_v1beta1 _ _) as [err1|v1b1] eqn:Hto.
  { split; [intros [= <-]; by left |].
    intros [[= <-] | (v & [=] & _)]; done. }
  destruct (Convert_from_v1beta1 _ _) as [err2|crd2] eqn:Hfrom.
  - split; [intros [= <-]; right; by exists v1b1 |].
    intros [[=] | (v & [= <-] & Hv)]. by rewrite Hfrom in Hv.
  - split; [done |].
    intros [[=] | (v & [= <-] & Hv)]. by rewrite Hfrom in Hv.
Qed.

(** ** Names of definitions *)

Lemma createCRD_Name (h : crdHelper) (templ : templates.ConstraintTemplate)
    (schema : option apiextensions.JSONSchemaProps)
    (crd2 : apiextensions.CustomResourceDefinition) :
  createCRD h templ schema = inr crd2 →
  metav1.Name (apiextensions.ObjectMeta crd2)
  = strings_ToLower (template_Kind templ) ++ "." ++ constraintGroup.
Proof. by intros (v1b1 & crd1 & _ & _ & ->)%createCRD_inr. Qed.

(** X4. Two definitions that [createCRD] returns have the same object name
    exactly when [strings.ToLower] gives the same text for the kinds of
    their templates, whatever the schemas and the schemes are: kinds that
    it lower-cases to one text are given one name, and no other kinds
    are. *)
Theorem createCRD_same_name (h1 h2 : crdHelper)
    (templ1 templ2 : templates.ConstraintTemplate)
    (schema1 schema2 : option apiextensions.JSONSchemaProps)
    (crd1 crd2 : apiextensions.CustomResourceDefinition) :
  createCRD h1 templ1 schema1 = inr crd1 →
  createCRD h2 templ2 schema2 = inr crd2 →
  (metav1.Name (apiextensions.ObjectMeta crd1)
   = metav1.Name (apiextensions.ObjectMeta crd2) ↔
   strings_ToLower (template_Kind templ1)
   = strings_ToLower (template_Kind templ2)).
Proof.
  intros ->%createCRD_Name ->%createCRD_Name. split.
  - apply append_cancel_r.
  - by intros ->.
Qed.

(** ** What [validateCR] reads, and when it accepts *)

(** X5. Of a definition, [validateCR] reads the [Validation] and the kind
    and nothing else; it does not use its helper either.  The group and the
    versions that the definition declares play no part: the instance is
    checked against the group and the supported versions of the package. *)
Theorem validateCR_reads_definition (h h' : crdHelper) (cr : Unstructured)
    (crd crd' : apiextensions.CustomResourceDefinition) :
  apiextensions.Validation (apiextensions.Spec crd)
  = apiextensions.Validation (apiextensions.Spec crd') →
  apiextensions.Kind (apiextensions.Names (apiextensions.Spec crd))
  = apiextensions.Kind (apiextensions.Names (apiextensions.Spec crd')) →
  validateCR h cr crd = validateCR h' cr crd'.
Proof. unfold validateCR. by intros -> ->. Qed.

Lemma validateCR_nil_iff (h : crdHelper) (cr : Unstructured)
    (crd : apiextensions.CustomResourceDefinition) :
  validateCR h cr crd = None ↔
  ∃ validator,
    NewSchemaValidator (apiextensions.Validation (apiextensions.Spec crd))
      = inr validator ∧
    (ValidateCustomResource cr validator = Some [] ∨
     ValidateCustomResource cr validator = None ∧
     IsDNS1123Subdomain (GetName cr) = [] ∧
     GetKind cr
       = apiextensions.Kind (apiextensions.Names (apiextensions.Spec crd)) ∧
     gvk_Group (GroupVersionKind cr) = constraintGroup ∧
     (gvk_Version (GroupVersionKind cr) = v1alpha1_Version ∨
      gvk_Version (GroupVersionKind cr) = v1beta1_Version)).
Proof.
  unfold validateCR.
  destruct (NewSchemaValidator _) as [err|validator] eqn:Hnew.
  { split; [done | by intros (v & [=] & _)]. }
  destruct (ValidateCustomResource cr validator) as [[|e errs]|] eqn:Hvalid.
  - split; [intros _; exists validator; by auto | done].
  - rewrite ToAggregate_Some by done. split; [done |].
    intros (v & [= <-] & [Hv | [Hv _]]); by rewrite Hvalid in Hv.
  - setoid_rewrite <- index_supportedVersions.
    destruct (IsDNS1123Subdomain (GetName cr)) as [|msg msgs] eqn:Hname; cbn.
    2: { split; [done |].
         intros (v & [= <-] & [Hv | (_ & [=] & _)]). by rewrite Hvalid in Hv. }
    destruct (String.eqb_spec (GetKind cr)
                (apiextensions.Kind
                   (apiextensions.Names (apiextensions.Spec crd))))
      as [Hkind|Hkind]; cbn.
    2: { split; [done |].
         intros (v & [= <-] & [Hv | (_ & _ & Hk & _)]);
           [by rewrite Hvalid in Hv | done]. }
    destruct (String.eqb_spec (gvk_Group (GroupVersionKind cr)) constraintGroup)
      as [Hgroup|Hgroup]; cbn.
    2: { split; [done |].
         intros (v & [= <-] & [Hv | (_ & _ & _ & Hg & _)]);
           [by rewrite Hvalid in Hv | done]. }
    destruct (index_bool supportedVersions (gvk_Version (GroupVersionKind cr)))
      eqn:Hversion; cbn.
    + split; [intros _ | done]. exists validator. split; [done |]. by right.
    + split; [done |].
      intros (v & [= <-] & [Hv | (_ & _ & _ & _ & Hs)]);
        [by rewrite Hvalid in Hv | done].
Qed.

(** X6. [validateCR] accepts an instance exactly when the validator is
    built and either the schema validation reports nothing and the name, the
    kind, the group and the version all pass, or the schema validation
    answers a list that is empty without being nil, in which case the name,
    kind, group and version are not looked at. *)
Theorem validateCR_accepts (h : crdHelper) (cr : Unstructured)
    (crd : apiextensions.CustomResourceDefinition) :
  validateCR h cr crd = None ↔
  ∃ validator,
    NewSchemaValidator (apiextensions.Validation (apiextensions.Spec crd))
      = inr validator ∧
    (ValidateCustomResource cr validator = Some [] ∨
     ValidateCustomResource cr validator = None ∧
     IsDNS1123Subdomain (GetName cr) = [] ∧
     GetKind cr
       = apiextensions.Kind (apiextensions.Names (apiextensions.Spec crd)) ∧
     gvk_Group (GroupVersionKind cr) = constraintGroup ∧
     (gvk_Version (GroupVersionKind cr) = v1alpha1_Version ∨
      gvk_Version (GroupVersionKind cr) = v1beta1_Version)).
Proof. apply validateCR_nil_iff. Qed.

(** X7. The pipeline end to end.  For the definition synthesized from a
    template, [createSchema] then [createCRD], the round trip keeping the
    schema and the names that were set, [validateCR] builds its validator
    from the composed schema and compares the kind of the instance with the
    kind of the template as written, letter case included: an instance is
    accepted exactly when that validator is built and, the schema validation
    reporting nothing, its name is well-formed, its kind is the kind of the
    template, its group is the group of the package and its version is
    supported (or the reported list is empty without being nil). *)
Theorem validateCR_synthesized (h : crdHelper)
    (templ : templates.ConstraintTemplate) (target : MatchSchemaProvider)
    (schema : apiextensions.JSONSchemaProps)
    (crd2 : apiextensions.CustomResourceDefinition) (cr : Unstructured) :
  createSchema h templ target = inr schema →
  createCRD h templ (Some schema) = inr crd2 →
  round_trip_keeps (scheme h) apiextensions.Validation
    (createCRD_crd templ (Some schema)) →
  round_trip_keeps (scheme h) apiextensions.Names
    (createCRD_crd templ (Some schema)) →
  validateCR h cr crd2 = None ↔
  ∃ validator,
    NewSchemaValidator
      (Some {| apiextensions.OpenAPIV3Schema := Some schema |})
      = inr validator ∧
    (ValidateCustomResource cr validator = Some [] ∨
     ValidateCustomResource cr validator = None ∧
     IsDNS1123Subdomain (GetName cr) = [] ∧
     GetKind cr = template_Kind templ ∧
     gvk_Group (GroupVersionKind cr) = constraintGroup ∧
     (gvk_Version (GroupVersionKind cr) = v1alpha1_Version ∨
      gvk_Version (GroupVersionKind cr) = v1beta1_Version)).
Proof.
  intros _ (v1b1 & crd1 & Hto & Hfrom & ->)%createCRD_inr Hvalidation Hnames.
  rewrite validateCR_nil_iff. cbn.
  by rewrite (Hvalidation _ _ Hto Hfrom), (Hnames _ _ Hto Hfrom).
Qed.

End more_client_properties.

(** * The further properties at work *)
Section more_checks.
Import client.

Example validateTargets_messages_run :
  validateTargets (demo.template (Some ∅) None)
  = Some (errors_New
            "No targets specified. ConstraintTemplate must specify one target") ∧
  validateTargets demo_more.without_targets
  = Some (errors_New ("Field " ++ dquote ++ "targets" ++ dquote ++
                      " not specified in ConstraintTemplate spec")).
Proof. split; vm_compute; reflexivity. Qed.

(** A template that [validateTargets] refuses is composed all the same. *)
Lemma createSchema_reads_parameters_witness :
  is_Some (validateTargets demo_more.without_targets) ∧
  @createSchema demo.helper demo_more.without_targets demo.target
  = inr demo.composed.
Proof.
  split; [by eexists |].
  rewrite (createSchema_reads_parameters demo.helper
             demo_more.without_targets demo.required_labels demo.target eq_refl).
  vm_compute. reflexivity.
Defined.

Example createCRD_errors_run :
  @createCRD demo.names demo.platform {| scheme := demo.refusing |} demo.required_labels None
  = inl (platform_error "no conversion registered").
Proof. reflexivity. Qed.

Lemma createCRD_of_kind (kind : string) :
  @createCRD demo.names demo.platform demo.helper (demo_more.template_of_kind kind) None
  = inr (demo_more.definition_of_kind kind).
Proof. reflexivity. Qed.

(** Two spellings of one kind, one name; another kind, another name. *)
Lemma createCRD_same_name_witness :
  metav1.Name (apiextensions.ObjectMeta
                 (demo_more.definition_of_kind "K8sRequiredLabels"))
  = metav1.Name (apiextensions.ObjectMeta
                   (demo_more.definition_of_kind "k8sREQUIREDlabels")) ∧
  metav1.Name (apiextensions.ObjectMeta
                 (demo_more.definition_of_kind "K8sRequiredLabels"))
  ≠ metav1.Name (apiextensions.ObjectMeta
                   (demo_more.definition_of_kind "K8sAllowedRepos")).
Proof.
  split.
  - apply (@createCRD_same_name demo.names demo.platform demo.helper demo.helper
             (demo_more.template_of_kind "K8sRequiredLabels")
             (demo_more.template_of_kind "k8sREQUIREDlabels") None None
             _ _ (createCRD_of_kind _) (createCRD_of_kind _)).
    vm_compute. reflexivity.
  - intros Heq.
    apply (@createCRD_same_name demo.names demo.platform demo.helper demo.helper
             (demo_more.template_of_kind "K8sRequiredLabels")
             (demo_more.template_of_kind "K8sAllowedRepos") None None
             _ _ (createCRD_of_kind _) (createCRD_of_kind _)) in Heq.
    vm_compute in Heq. discriminate.
Defined.

(** An instance accepted against [demo.definition] is accepted against a
    definition of another group that declares no version. *)
Lemma validateCR_reads_definition_witness :
  @validateCR demo.names demo.platform demo.helper demo_more.accepted
    demo_more.foreign = None.
Proof.
  rewrite (@validateCR_reads_definition demo.names demo.platform demo.helper
             demo.helper demo_more.accepted demo_more.foreign demo.definition).
  - vm_compute. reflexivity.
  - vm_compute. reflexivity.
  - vm_compute. reflexivity.
Defined.

Example validateCR_accepts_run :
  @validateCR demo.names demo.platform demo.helper demo_more.accepted
    demo.definition = None.
Proof. vm_compute. reflexivity. Qed.

Lemma validateCR_synthesized_witness :
  @validateCR demo.names demo.platform demo.helper demo_more.accepted
    demo.definition = None.
Proof.
  apply (@validateCR_synthesized demo.names demo.platform demo.helper
           demo.required_labels demo.target demo.composed demo.definition
           demo_more.accepted
           (proj1 createCRD_required_labels) (proj2 createCRD_required_labels)
           (copying_keeps apiextensions.Validation
              (@createCRD_crd demo.names demo.platform demo.required_labels
                 (Some demo.composed)) eq_refl)
           (copying_keeps apiextensions.Names
              (@createCRD_crd demo.names demo.platform demo.required_labels
                 (Some demo.composed)) eq_refl)).
  exists (Some demo.composed). split; [vm_compute; reflexivity |].
  right. split; [vm_compute; reflexivity |]. split; [vm_compute; reflexivity |].
  split; [vm_compute; reflexivity |]. split; [vm_compute; reflexivity |].
  right. vm_compute. reflexivity.
Defined.

Lemma demo_view : v1alpha1.view demo.heap 1%positive = Some demo.stored_value.
Proof. vm_compute. reflexivity. Qed.

(** A copy, then a copy of the copy. *)
Lemma DeepCopy_successive_witness :
  ∃ l1 h1 l2 h2,
    v1alpha1.ConstraintTemplate_DeepCopy (Some 1%positive) demo.heap
      = Some (Some l1, h1) ∧
    v1alpha1.ConstraintTemplate_DeepCopy (Some l1) h1 = Some (Some l2, h2) ∧
    v1alpha1.view h2 1%positive = Some demo.stored_value ∧
    v1alpha1.view h2 l1 = Some demo.stored_value ∧
    v1alpha1.view h2 l2 = Some demo.stored_value ∧
    ∀ a, a ∈ v1alpha1.footprint h2 l2 →
         (a ∉ v1alpha1.footprint h2 1%positive) ∧
         (a ∉ v1alpha1.footprint h2 l1).
Proof.
  destruct (DeepCopy_successive demo.heap 1%positive demo.stored_value demo_view)
    as (l1 & h1 & Hcopy1 & Hview1 & Hnext).
  destruct (Hnext l1 demo.stored_value Hview1)
    as (l2 & h2 & Hcopy2 & Hl & Hl1 & _ & Hl2 & Hdisjoint).
  exists l1, h1, l2, h2.
  refine (conj Hcopy1 (conj Hcopy2 (conj Hl (conj Hl1 (conj Hl2 _))))).
  intros a Ha. destruct (Hdisjoint a Ha) as (Hp & Hp1 & _).
  exact (conj Hp Hp1).
Defined.

Lemma Validation_DeepCopy_deep_witness :
  ∃ p' h',
    v1alpha1.Validation_DeepCopy (Some 3%positive) demo.heap = Some (p', h') ∧
    p' ≠ None ∧
    v1alpha1.view_Validation h' p'
    = v1alpha1.view_Validation demo.heap (Some 3%positive).
Proof.
  destruct (Validation_DeepCopy_deep demo.heap (Some 3%positive))
    as (p' & h' & Hcopy & _ & Hview & Hnil & _).
  { vm_compute. by eexists. }
  exists p', h'. refine (conj Hcopy (conj _ Hview)).
  intros Hp'. apply Hnil in Hp'. discriminate.
Defined.

Lemma demo_view_List :
  v1alpha1_lists.view_List demo_more.store demo_more.stored_twice
  = Some demo_more.stored_twice_value.
Proof. vm_compute. reflexivity. Qed.

(** The two items of the list share every object; the two items of the copy
    share none. *)
Lemma ConstraintTemplateList_DeepCopyInto_deep_witness :
  ∃ L' s' sl' t1 t2,
    v1alpha1_lists.ConstraintTemplateList_DeepCopyInto demo_more.stored_twice
      demo_more.store = Some (L', s') ∧
    v1alpha1_lists.view_List s' L' = Some demo_more.stored_twice_value ∧
    v1alpha1_lists.Items L' = Some sl' ∧
    v1alpha1_lists.items_of s' sl' = Some [t1; t2] ∧
    ∀ a, a ∈ v1alpha1.footprint_template (v1alpha1_lists.objects s') t1 →
         a ∉ v1alpha1.footprint_template (v1alpha1_lists.objects s') t2.
Proof.
  destruct (ConstraintTemplateList_DeepCopyInto_deep demo_more.store
              demo_more.stored_twice demo_more.stored_twice_value
              demo_view_List)
    as (L' & s' & Hcopy & _ & _ & _ & Hview & Hnil & Hitems).
  destruct (v1alpha1_lists.Items L') as [sl'|] eqn:Hsl'.
  2: { exfalso. destruct Hnil as [Hnil _]. specialize (Hnil eq_refl).
       discriminate. }
  destruct (Hitems sl' eq_refl) as (_ & ts' & Hts' & Hlen & _ & Hpair).
  specialize (Hlen _ eq_refl). cbn in Hlen.
  destruct ts' as [|t1 [|t2 [|t3 ts']]];
    try (exfalso; clear -Hlen; cbn in Hlen; lia).
  exists L', s', sl', t1, t2.
  refine (conj Hcopy (conj Hview (conj Hsl' (conj Hts' _)))).
  exact (Hpair 0%nat 1%nat t1 t2 ltac:(discriminate) eq_refl eq_refl).
Defined.

Lemma ConstraintTemplateList_DeepCopy_deep_witness :
  ∃ p' L' s',
    v1alpha1_lists.ConstraintTemplateList_DeepCopy (Some 1%positive)
      demo_more.store = Some (Some p', s') ∧
    v1alpha1_lists.lists s' !! p' = Some L' ∧
    v1alpha1_lists.lists s' !! 1%positive = Some demo_more.stored_twice ∧
    v1alpha1_lists.view_List s' L' = Some demo_more.stored_twice_value.
Proof.
  destruct (ConstraintTemplateList_DeepCopy_deep demo_more.store 1%positive
              demo_more.stored_twice demo_more.stored_twice_value
              eq_refl demo_view_List)
    as (p' & L' & s' & Hcopy & Hfree & Hlists & _ & _ & Hview & _).
  exists p', L', s'. refine (conj Hcopy (conj _ (conj _ Hview))).
  - rewrite Hlists. apply lookup_insert_eq.
  - rewrite Hlists. rewrite lookup_insert_ne; [reflexivity |].
    intros Heq. rewrite Heq in Hfree. clear -Hfree.
    vm_compute in Hfree. discriminate Hfree.
Defined.

Lemma DeepCopyObject_nil_witness :
  v1alpha1_lists.ConstraintTemplate_DeepCopyObject None demo_more.store
  = Some (v1alpha1_lists.Object_nil, demo_more.store) ∧
  ∀ o s',
    v1alpha1_lists.ConstraintTemplate_DeepCopyObject (Some 1%positive)
      demo_more.store = Some (o, s') →
    o ≠ v1alpha1_lists.Object_nil.
Proof.
  split; [reflexivity |].
  intros o s' Hcopy Ho.
  destruct (DeepCopyObject_nil demo_more.store s' (Some 1%positive) o)
    as [Htemplate _].
  destruct (Htemplate Hcopy) as [Hnil _].
  apply Hnil in Ho. discriminate.
Defined.

Lemma DeepCopy_allocates_witness :
  ∃ l' h',
    v1alpha1.ConstraintTemplate_DeepCopy (Some 1%positive) demo.heap
      = Some (Some l', h') ∧
    ∀ a, is_Some (h' !! a) ↔
         is_Some (demo.heap !! a) ∨ a ∈ v1alpha1.footprint h' l'.
Proof.
  destruct (DeepCopy_allocates demo.heap 1%positive demo.stored_value demo_view)
    as (l' & h' & Hcopy & _ & Hdom).
  exists l', h'. exact (conj Hcopy Hdom).
Defined.

End more_checks.
